(** * RAG-OA backend: a shallow embedding of [src/index.js]

    The backend has three routes.  [GET /] reports liveness,
    [POST /upload-document] extracts the text of a PDF, cleans it up, has it
    split into chunks, embeds the chunks and upserts them into the vector
    index, and [POST /ask-question] retrieves stored chunks for a question and
    asks the chat model for an answer grounded in them.

    Everything that leaves the process (PDF extraction, the text splitter, the
    embedding provider, the vector index, the LangChain retriever, the chat
    model and the clock) is an external collaborator.  A handler is a program
    in a small free monad over the calls it makes; running it against an
    arbitrary environment gives the trace of calls with their replies and the
    HTTP response.  [console.log] output is not modelled. *)

From Stdlib Require Import ZArith NArith Ascii String List Lia Bool.
From Stdlib Require Import DecimalString Decimal DecimalZ DecimalPos.
From Stdlib Require Import Floats.
From stdpp Require Import base list.

Set Default Proof Using "Type".
Open Scope list_scope.

(** ** JavaScript strings

    A JavaScript string is a sequence of UTF-16 code units.  The regular
    expression class [\s] and [String.prototype.trim] are defined on code
    units, so the model keeps them. *)

Module JsString.

Abbreviation jsstring := (list N) (only parsing).

(** An ASCII literal of the source as a JavaScript string. *)
Definition lit (s : string) : jsstring :=
  List.map N_of_ascii (list_ascii_of_string s).

Definition SPACE : N := 32.
Definition LF : N := 10.
Definition CR : N := 13.

(** [\s]: WhiteSpace and LineTerminator of ECMAScript, that is TAB, LF, VT,
    FF, CR, SP, NBSP, U+1680, U+2000..U+200A, LS, PS, U+202F, U+205F, U+3000
    and the byte order mark U+FEFF.  [trim] strips the same set. *)
Definition is_ws (c : N) : bool :=
  ((9 <=? c) && (c <=? 13) || (c =? 32) || (c =? 160) || (c =? 5760)
   || (8192 <=? c) && (c <=? 8202) || (c =? 8232) || (c =? 8233)
   || (c =? 8239) || (c =? 8287) || (c =? 12288) || (c =? 65279))%N.

(** [Array.prototype.join]: the elements separated by [sep]; the empty array
    joins to the empty string. *)
Fixpoint join (sep : jsstring) (parts : list jsstring) : jsstring :=
  match parts with
  | [] => []
  | [p] => p
  | p :: rest => p ++ sep ++ join sep rest
  end.

(** [s.replace(/\s+/g, " ")]: scanning left to right, every maximal run of
    white space becomes one space.  [in_run] tells that the code unit before
    the current one belonged to a run already replaced. *)
Fixpoint collapse_from (in_run : bool) (s : jsstring) : jsstring :=
  match s with
  | [] => []
  | c :: s' =>
      if is_ws c
      then if in_run then collapse_from true s' else SPACE :: collapse_from true s'
      else c :: collapse_from false s'
  end.

Definition collapse_ws (s : jsstring) : jsstring := collapse_from false s.

(** [s.replace(/(\r\n|\n|\r)/gm, " ")]: the alternation tries CR LF first. *)
Fixpoint replace_newlines (s : jsstring) : jsstring :=
  match s with
  | [] => []
  | c :: s' =>
      if (c =? CR)%N then
        match s' with
        | d :: s'' =>
            if (d =? LF)%N then SPACE :: replace_newlines s''
            else SPACE :: replace_newlines s'
        | [] => [SPACE]
        end
      else if (c =? LF)%N then SPACE :: replace_newlines s'
      else c :: replace_newlines s'
  end.

Fixpoint trim_start (s : jsstring) : jsstring :=
  match s with
  | [] => []
  | c :: s' => if is_ws c then trim_start s' else s
  end.

Fixpoint trim_end (s : jsstring) : jsstring :=
  match s with
  | [] => []
  | c :: s' =>
      match trim_end s' with
      | [] => if is_ws c then [] else [c]
      | r => c :: r
      end
  end.

(** [s.trim()] *)
Definition trim (s : jsstring) : jsstring := trim_end (trim_start s).

(** The clean-up of the extracted text, lines 71-74 of the source. *)
Definition normalize (fullText : jsstring) : jsstring :=
  trim (replace_newlines (collapse_ws fullText)).

(** Number to string conversion of a template literal, for the integers the
    program prints (a clock reading, an array index): plain decimal digits,
    with a leading minus sign for a negative value. *)
Definition dec (z : Z) : jsstring := lit (NilZero.string_of_int (Z.to_int z)).

End JsString.
Export JsString.

(** ** Data exchanged with the collaborators *)

(** Errors are JavaScript [Error] objects; the handlers read only their
    [message]. *)
Inductive result (A : Type) : Type :=
| Ok (a : A)
| Thrown (message : jsstring).
Arguments Ok {A} a.
Arguments Thrown {A} message.

(** Output of [pdfExtract.extractBuffer]: [data.pages] may be missing. *)
Record Item := { str : jsstring }.
Record Page := { content : list Item }.
Record PdfData := { pages : option (list Page) }.

(** A LangChain [Document]; its [metadata] is only ever logged. *)
Record Document := { pageContent : jsstring }.

(** An embedding: an array of JavaScript numbers (IEEE doubles). *)
Definition vector := list float.

(** The metadata this program stores with a vector, under the key
    ["pageContent"]. *)
Record RecordMetadata := { md_pageContent : jsstring }.

Record UpsertRequest := {
  id : jsstring;
  values : vector;
  metadata : RecordMetadata
}.

Record QueryRequest := {
  q_vector : vector;
  topK : nat;
  includeMetadata : bool
}.

(** A match of a similarity query; a record stored without metadata comes back
    with [metadata] undefined. *)
Record Match := {
  match_id : jsstring;
  match_score : float;
  match_metadata : option RecordMetadata
}.

Record QueryResponse := { matches : list Match }.

(** ** Calls to the collaborators *)

Inductive call : Type :=
| ExtractBuffer (buffer : list Byte.byte)
| CreateDocuments (chunkSize chunkOverlap : nat) (texts : list jsstring)
| EmbedDocuments (texts : list jsstring)
| DateNow
| IndexUpsert (records : list UpsertRequest)
| EmbedQuery (text : jsstring)
| IndexQuery (request : QueryRequest)
| RetrieverInvoke (k : nat) (query : jsstring)
| ModelInvoke (prompt : jsstring).

(** What a call gives back.  Every awaited promise may reject; [Date.now()]
    returns the clock reading in milliseconds. *)
Definition reply (c : call) : Type :=
  match c with
  | ExtractBuffer _ => result PdfData
  | CreateDocuments _ _ _ => result (list Document)
  | EmbedDocuments _ => result (list vector)
  | DateNow => Z
  | IndexUpsert _ => result unit
  | EmbedQuery _ => result vector
  | IndexQuery _ => result QueryResponse
  | RetrieverInvoke _ _ => result (list Document)
  | ModelInvoke _ => result jsstring
  end.

(** A call together with its reply, as it appears in a trace. *)
Inductive event : Type :=
| Extracted (buffer : list Byte.byte) (r : result PdfData)
| Split (chunkSize chunkOverlap : nat) (texts : list jsstring) (r : result (list Document))
| EmbeddedDocuments (texts : list jsstring) (r : result (list vector))
| ClockRead (now : Z)
| Upserted (records : list UpsertRequest) (r : result unit)
| EmbeddedQuery (text : jsstring) (r : result vector)
| Queried (request : QueryRequest) (r : result QueryResponse)
| Retrieved (k : nat) (query : jsstring) (r : result (list Document))
| Completed (prompt : jsstring) (r : result jsstring).

Definition observe (c : call) : reply c -> event :=
  match c with
  | ExtractBuffer b => Extracted b
  | CreateDocuments size overlap ts => Split size overlap ts
  | EmbedDocuments ts => EmbeddedDocuments ts
  | DateNow => ClockRead
  | IndexUpsert rs => Upserted rs
  | EmbedQuery t => EmbeddedQuery t
  | IndexQuery q => Queried q
  | RetrieverInvoke k q => Retrieved k q
  | ModelInvoke p => Completed p
  end.

(** ** Programs *)

Inductive prog (A : Type) : Type :=
| Ret (a : A)
| Throw (message : jsstring)
| Do (c : call) (k : reply c -> prog A).
Arguments Ret {A} a.
Arguments Throw {A} message.
Arguments Do {A} c k.

Fixpoint bind {A B} (p : prog A) (f : A -> prog B) : prog B :=
  match p with
  | Ret a => f a
  | Throw e => Throw e
  | Do c k => Do c (fun r => bind (k r) f)
  end.

(** [try { p } catch (error) { handler(error.message) }] *)
Fixpoint catch {A} (p : prog A) (handler : jsstring -> prog A) : prog A :=
  match p with
  | Ret a => Ret a
  | Throw e => handler e
  | Do c k => Do c (fun r => catch (k r) handler)
  end.

(** [await] of a promise that resolved or rejected. *)
Definition settle {A} (r : result A) : prog A :=
  match r with
  | Ok a => Ret a
  | Thrown e => Throw e
  end.

Declare Scope prog_scope.
Delimit Scope prog_scope with prog.
Notation "x <- p ;; q" := (bind p (fun x => q))
  (at level 100, p at next level, right associativity) : prog_scope.
Notation "'await' c" := (Do c settle) (at level 10, c at level 9) : prog_scope.
Open Scope prog_scope.

(** An environment answers every call from its current state. *)
Definition environment (W : Type) : Type := forall c : call, W -> reply c * W.

Inductive outcome (A : Type) : Type :=
| Returned (a : A)
| Uncaught (message : jsstring).
Arguments Returned {A} a.
Arguments Uncaught {A} message.

(** Running a program: the trace of calls, the outcome and the final state of
    the environment. *)
Fixpoint run {W A} (env : environment W) (p : prog A) (w : W)
  : list event * outcome A * W :=
  match p with
  | Ret a => ([], Returned a, w)
  | Throw e => ([], Uncaught e, w)
  | Do c k =>
      let '(r, w1) := env c w in
      let '(t, o, w2) := run env (k r) w1 in
      (observe c r :: t, o, w2)
  end.

Definition trace_of {W A} (x : list event * outcome A * W) : list event := fst (fst x).
Definition outcome_of {W A} (x : list event * outcome A * W) : outcome A := snd (fst x).
Definition state_of {W A} (x : list event * outcome A * W) : W := snd x.

(** ** HTTP responses *)

(** [res.json(obj)] sends a JSON object, here with string members;
    [res.send(str)] sends the string itself as the body. *)
Inductive body : Type :=
| Json (members : list (jsstring * jsstring))
| Text (s : jsstring).

Record response := { status : Z; payload : body }.

Definition is_json (b : body) : bool :=
  match b with Json _ => true | Text _ => false end.

(** ** [GET /] *)

Definition root : prog response :=
  Ret {| status := 200;
         payload := Json [(lit "message", lit "Backend running successfully!")] |}.

(** ** [POST /upload-document]

    Synchronous code that may throw ([extracted_text], [assign_embeddings],
    and [relevant_docs] below) is a function into [result]; [settle] raises
    its error in the handler. *)

(** Lines 60-68: the page texts, items joined by a space and pages by a blank
    line; no pages is an error. *)
Definition page_text (page : Page) : jsstring :=
  join (lit " ") (List.map str (content page)).

Definition extracted_text (data : PdfData) : result jsstring :=
  match pages data with
  | Some ((_ :: _) as ps) => Ok (join [LF; LF] (List.map page_text ps))
  | _ => Thrown (lit "No text found in PDF or PDF parsing failed.")
  end.

(** Lines 92-98: [docs.map((doc, index) => ...)].  The clock is read once for
    every chunk, while its identifier is built. *)
Definition upsert_id (now : Z) (index : nat) : jsstring :=
  lit "doc-" ++ dec now ++ lit "-" ++ dec (Z.of_nat index).

Fixpoint build_requests (index : nat) (docs : list Document) : prog (list UpsertRequest) :=
  match docs with
  | [] => Ret []
  | doc :: rest =>
      Do DateNow (fun now =>
        reqs <- build_requests (S index) rest ;;
        Ret ({| id := upsert_id now index;
                values := [];
                metadata := {| md_pageContent := pageContent doc |} |} :: reqs))
  end.

(** Lines 103-105: [chunkEmbeddings.forEach((embedding, index) =>
    upsertRequests[index].values = embedding)].  An index past the end of
    [upsertRequests] reads [undefined], and setting a property of it throws. *)
Definition set_values (embedding : vector) (r : UpsertRequest) : UpsertRequest :=
  {| id := id r; values := embedding; metadata := metadata r |}.

Fixpoint assign_embeddings (index : nat) (chunkEmbeddings : list vector)
    (upsertRequests : list UpsertRequest) : result (list UpsertRequest) :=
  match chunkEmbeddings with
  | [] => Ok upsertRequests
  | embedding :: rest =>
      match upsertRequests !! index with
      | Some r =>
          assign_embeddings (S index) rest (<[index := set_values embedding r]> upsertRequests)
      | None => Thrown (lit "Cannot set properties of undefined (setting 'values')")
      end
  end.

Definition upload_pipeline (buffer : list Byte.byte) : prog response :=
  data <- await (ExtractBuffer buffer) ;;
  fullText <- settle (extracted_text data) ;;
  let fullText := normalize fullText in
  docs <- await (CreateDocuments 1000 200 [fullText]) ;;
  upsertRequests <- build_requests 0 docs ;;
  let chunkTexts := List.map pageContent docs in
  chunkEmbeddings <- await (EmbedDocuments chunkTexts) ;;
  upsertRequests <- settle (assign_embeddings 0 chunkEmbeddings upsertRequests) ;;
  _ <- await (IndexUpsert upsertRequests) ;;
  Ret {| status := 200;
         payload := Json [(lit "message", lit "Document processed and indexed successfully.")] |}.

(** [file] is [req.file]: the buffer of the uploaded document, if the form had
    the field. *)
Definition upload_document (file : option (list Byte.byte)) : prog response :=
  match file with
  | None => Ret {| status := 400; payload := Text (lit "No document uploaded.") |}
  | Some buffer =>
      catch (upload_pipeline buffer) (fun message =>
        Ret {| status := 500;
               payload := Json [(lit "error", lit "Error processing document: " ++ message)] |})
  end.

(** ** [POST /ask-question] *)

Definition fallback_answer : jsstring :=
  lit "I couldn't find relevant information in the document to answer your question. Please try rephrasing or provide more context.".

(** The prompt template of lines 181-191, as [PromptTemplate.fromTemplate]
    parses it: literal text around the two input variables. *)
Inductive input_variable := context | question.

Inductive template_node :=
| Literal (text : jsstring)
| Input (name : input_variable).

Definition lit_lines (ls : list string) : jsstring := join [LF] (List.map lit ls).

Definition contextualizedPrompt : list template_node :=
  [ Literal (lit_lines
      [ "You are an intelligent assistant designed to provide answers based on the *provided context only*.";
        "    ";
        "        Carefully read the following context:";
        "        " ]%string);
    Input context;
    Literal (lit_lines
      [ "";
        "    ";
        "        Now, please answer the user's question. Answer the question as per the context, try to be intelligent and understand the question, if the information isn't available in the provided context, politely state that you don't have enough information from the document to answer.";
        "        Question: " ]%string);
    Input question;
    Literal (lit_lines
      [ "";
        "    ";
        "        Answer:" ]%string) ].

(** Formatting substitutes the values for the variables; they are not parsed
    again. *)
Definition format (template : list template_node) (values : input_variable -> jsstring)
  : jsstring :=
  List.concat (List.map (fun node =>
    match node with
    | Literal text => text
    | Input name => values name
    end) template).

(** Lines 147-153: a [Document] for every match; reading [pageContent] of a
    missing [metadata] throws. *)
Fixpoint relevant_docs (ms : list Match) : result (list Document) :=
  match ms with
  | [] => Ok []
  | m :: rest =>
      match match_metadata m with
      | Some md =>
          match relevant_docs rest with
          | Ok docs => Ok ({| pageContent := md_pageContent md |} :: docs)
          | Thrown e => Thrown e
          end
      | None => Thrown (lit "Cannot read properties of undefined (reading 'pageContent')")
      end
  end.

(** Lines 192-235: the chain.  Its first step maps the question to
    [{context, question}]: the context is what the retriever of the vector
    store (built with [asRetriever(5)]) finds for the question, page contents
    joined by a blank line; the question passes through.  Then the prompt is
    formatted and the chat model invoked; the output parser gives its text. *)
Definition ragChain (input : jsstring) : prog jsstring :=
  docsFromRetriever <- await (RetrieverInvoke 5 input) ;;
  let mappedContents := List.map pageContent docsFromRetriever in
  let combinedContext := join [LF; LF] mappedContents in
  let prompt :=
    format contextualizedPrompt
      (fun name => match name with context => combinedContext | question => input end) in
  await (ModelInvoke prompt).

Definition answer_pipeline (q : jsstring) : prog response :=
  questionEmbedding <- await (EmbedQuery q) ;;
  queryResponse <- await (IndexQuery {| q_vector := questionEmbedding;
                                        topK := 5;
                                        includeMetadata := true |}) ;;
  relevantDocs <- settle (relevant_docs (matches queryResponse)) ;;
  if (length relevantDocs =? 0)%nat then
    Ret {| status := 200; payload := Json [(lit "answer", fallback_answer)] |}
  else
    answer <- ragChain q ;;
    Ret {| status := 200; payload := Json [(lit "answer", answer)] |}.

(** [!question] holds for a missing question and for the empty string. *)
Definition falsy (q : option jsstring) : bool :=
  match q with
  | None | Some [] => true
  | Some (_ :: _) => false
  end.

(** The parsed body of the request, as far as the handler reads it: its
    [question] member, missing or a string. *)
Record RequestBody := { body_question : option jsstring }.

(** [req_body] is [req.body], which is undefined when no JSON body was
    parsed.  Line 122 destructures it before the guard and outside the [try]:
    without a body the handler throws and sends no response itself. *)
Definition ask_question (req_body : option RequestBody) : prog response :=
  match req_body with
  | None =>
      Throw (lit "Cannot destructure property 'question' of 'req.body' as it is undefined.")
  | Some b =>
      match body_question b with
      | None | Some [] =>
          Ret {| status := 400; payload := Text (lit "Question is required.") |}
      | Some q =>
          catch (answer_pipeline q) (fun message =>
            Ret {| status := 500;
                   payload := Json [(lit "error", lit "Error answering question: " ++ message)] |})
      end
  end.

(** A request whose parsed body carries the question [q]. *)
Abbreviation asking q := (Some {| body_question := Some q |}).

(** ** Shape of a cleaned-up text

    [spaced prev_ws s]: every white-space code unit of [s] is a space, and no
    two of them are adjacent ([prev_ws] tells whether [s] follows one). *)
Fixpoint spaced (prev_ws : bool) (s : jsstring) : bool :=
  match s with
  | [] => true
  | c :: s' =>
      if is_ws c then (c =? SPACE)%N && negb prev_ws && spaced true s'
      else spaced false s'
  end.

(** ** The text chunker of the specification *)

Module SpecChunker.

(** Modelled from the spec: the text chunker.  The source delegates chunking
    to [RecursiveCharacterTextSplitter] of the [langchain] package and only
    configures it ([chunkSize: 1000], [chunkOverlap: 200], lines 83-88); the
    code of the splitter is not among the sources of the repository.  The
    definitions below follow section 4.1 of the specification: the text is
    cleaned up first; an empty text is the error [NoContentExtracted];
    otherwise consecutive windows of up to [maxSize] code units are produced,
    each window after the first starting [overlap] code units before the end
    of the previous one, the last window possibly shorter; a text of at most
    [maxSize] code units gives exactly one chunk. *)
Inductive chunk_error : Type := NoContentExtracted.

(** [fuel] bounds the number of windows; the length of the text is enough,
    since every window after the first starts at least one code unit
    further. *)
Fixpoint windows (fuel maxSize overlap : nat) (text : jsstring) : list jsstring :=
  match fuel with
  | O => []
  | S fuel' =>
      if (length text <=? maxSize)%nat then [text]
      else take maxSize text :: windows fuel' maxSize overlap (drop (maxSize - overlap) text)
  end.

Definition chunk (text : jsstring) (maxSize overlap : nat) : chunk_error + list jsstring :=
  match normalize text with
  | [] => inl NoContentExtracted
  | cleaned => inr (windows (length cleaned) maxSize overlap cleaned)
  end.

(** Reassembling: the first chunk, then every further chunk without the
    [overlap] code units it shares with its predecessor. *)
Definition reassemble (overlap : nat) (chunks : list jsstring) : jsstring :=
  match chunks with
  | [] => []
  | first :: rest => first ++ List.concat (List.map (drop overlap) rest)
  end.

End SpecChunker.

(** ** The HTTP surface *)

Inductive request : Type :=
| GetRoot
| PostUploadDocument (file : option (list Byte.byte))
| PostAskQuestion (req_body : option RequestBody).

(** A request as its handler finds it, after [multer] and [express.json].
    When a handler ends in [Uncaught], it sent no response: the exception goes
    to the error handler of the framework, which is not part of the source. *)
Definition handle (req : request) : prog response :=
  match req with
  | GetRoot => root
  | PostUploadDocument file => upload_document file
  | PostAskQuestion req_body => ask_question req_body
  end.

(** A blank question: missing, empty or made of white space only. *)
Definition blank (q : option jsstring) : bool :=
  match q with
  | None => true
  | Some s => forallb is_ws s
  end.

(** ** What a trace shows *)

Definition is_upsert (ev : event) : bool :=
  match ev with Upserted _ _ => true | _ => false end.

Definition is_completion (ev : event) : bool :=
  match ev with Completed _ _ => true | _ => false end.

(** The message with which extraction, chunking or the batch embedding call
    failed, if the event is such a failure.  Extraction fails when the
    extractor rejects, and also when it yields no pages: the handler throws
    on line 67. *)
Definition ingestion_failure (ev : event) : option jsstring :=
  match ev with
  | Extracted _ (Thrown e) => Some e
  | Extracted _ (Ok data) =>
      match extracted_text data with
      | Thrown e => Some e
      | Ok _ => None
      end
  | Split _ _ _ (Thrown e) => Some e
  | EmbeddedDocuments _ (Thrown e) => Some e
  | _ => None
  end.

(** The prompt of the chain for a given context and question. *)
Definition rendered_prompt (combinedContext input : jsstring) : jsstring :=
  format contextualizedPrompt
    (fun name => match name with context => combinedContext | question => input end).

(** The text a match carries in its metadata. *)
Definition match_text (m : Match) : option jsstring :=
  md_pageContent <$> match_metadata m.

(** ** The runs of the two pipelines

    The identifiers and metadata [build_requests] produces for given clock
    readings, one reading per chunk. *)
Fixpoint stamp (index : nat) (docs : list Document) (clocks : list Z) : list UpsertRequest :=
  match docs, clocks with
  | doc :: docs', now :: clocks' =>
      {| id := upsert_id now index;
         values := [];
         metadata := {| md_pageContent := pageContent doc |} |}
      :: stamp (S index) docs' clocks'
  | _, _ => []
  end.

(** The calls of an ingestion up to the batch embedding call. *)
Definition ingestion_prefix (buffer : list Byte.byte) (data : PdfData) (text : jsstring)
    (docs : list Document) (clocks : list Z) : list event :=
  [Extracted buffer (Ok data); Split 1000 200 [normalize text] (Ok docs)]
  ++ List.map ClockRead clocks.

(** What the [forEach] of lines 103-105 leaves in [upsertRequests] when it
    does not throw: the embeddings, in order, in the requests, in order. *)
Fixpoint with_embeddings (chunkEmbeddings : list vector) (upsertRequests : list UpsertRequest)
  : list UpsertRequest :=
  match chunkEmbeddings, upsertRequests with
  | embedding :: rest, r :: rs => set_values embedding r :: with_embeddings rest rs
  | _, _ => upsertRequests
  end.

(** The chunk text an upserted record carries in its metadata. *)
Definition record_text (r : UpsertRequest) : jsstring := md_pageContent (metadata r).

(** Every run of [upload_pipeline] has one of these shapes. *)
Inductive upload_run (buffer : list Byte.byte) : list event -> outcome response -> Prop :=
| upload_extraction_rejected e :
    upload_run buffer [Extracted buffer (Thrown e)] (Uncaught e)
| upload_no_pages data e :
    extracted_text data = Thrown e ->
    upload_run buffer [Extracted buffer (Ok data)] (Uncaught e)
| upload_split_rejected data text e :
    extracted_text data = Ok text ->
    upload_run buffer
      [Extracted buffer (Ok data); Split 1000 200 [normalize text] (Thrown e)] (Uncaught e)
| upload_embedding_rejected data text docs clocks e :
    extracted_text data = Ok text ->
    length clocks = length docs ->
    upload_run buffer
      (ingestion_prefix buffer data text docs clocks
       ++ [EmbeddedDocuments (List.map pageContent docs) (Thrown e)])
      (Uncaught e)
| upload_assignment_failed data text docs clocks embeddings e :
    extracted_text data = Ok text ->
    length clocks = length docs ->
    assign_embeddings 0 embeddings (stamp 0 docs clocks) = Thrown e ->
    upload_run buffer
      (ingestion_prefix buffer data text docs clocks
       ++ [EmbeddedDocuments (List.map pageContent docs) (Ok embeddings)])
      (Uncaught e)
| upload_upsert_settled data text docs clocks embeddings records r :
    extracted_text data = Ok text ->
    length clocks = length docs ->
    assign_embeddings 0 embeddings (stamp 0 docs clocks) = Ok records ->
    upload_run buffer
      (ingestion_prefix buffer data text docs clocks
       ++ [EmbeddedDocuments (List.map pageContent docs) (Ok embeddings);
           Upserted records r])
      match r with
      | Ok _ =>
          Returned {| status := 200;
                      payload := Json [(lit "message",
                                        lit "Document processed and indexed successfully.")] |}
      | Thrown e => Uncaught e
      end.

Definition top5 (v : vector) : QueryRequest :=
  {| q_vector := v; topK := 5; includeMetadata := true |}.

(** Every run of [answer_pipeline] has one of these shapes. *)
Inductive ask_run (q : jsstring) : list event -> outcome response -> Prop :=
| ask_embedding_rejected e :
    ask_run q [EmbeddedQuery q (Thrown e)] (Uncaught e)
| ask_query_rejected v e :
    ask_run q [EmbeddedQuery q (Ok v); Queried (top5 v) (Thrown e)] (Uncaught e)
| ask_match_without_metadata v found e :
    relevant_docs (matches found) = Thrown e ->
    ask_run q [EmbeddedQuery q (Ok v); Queried (top5 v) (Ok found)] (Uncaught e)
| ask_nothing_found v found :
    matches found = [] ->
    ask_run q [EmbeddedQuery q (Ok v); Queried (top5 v) (Ok found)]
      (Returned {| status := 200; payload := Json [(lit "answer", fallback_answer)] |})
| ask_retriever_rejected v found relevantDocs e :
    relevant_docs (matches found) = Ok relevantDocs ->
    matches found <> [] ->
    ask_run q
      [EmbeddedQuery q (Ok v); Queried (top5 v) (Ok found); Retrieved 5 q (Thrown e)]
      (Uncaught e)
| ask_completion_settled v found relevantDocs docsFromRetriever r :
    relevant_docs (matches found) = Ok relevantDocs ->
    matches found <> [] ->
    ask_run q
      [EmbeddedQuery q (Ok v); Queried (top5 v) (Ok found);
       Retrieved 5 q (Ok docsFromRetriever);
       Completed (rendered_prompt (join [LF; LF] (List.map pageContent docsFromRetriever)) q) r]
      match r with
      | Ok answer => Returned {| status := 200; payload := Json [(lit "answer", answer)] |}
      | Thrown e => Uncaught e
      end.

(** What the [catch] clause of a handler makes of the outcome of its [try]
    block. *)
Definition recovered (prefix : string) (o : outcome response) : response :=
  match o with
  | Returned r => r
  | Uncaught message =>
      {| status := 500; payload := Json [(lit "error", lit prefix ++ message)] |}
  end.

(** The responses of the HTTP surface: a JSON object with one member for the
    statuses 200 ([message] or [answer]) and 500 ([error], the detail after a
    fixed prefix), a plain-text body for the status 400. *)
Definition documented (r : response) : Prop :=
  match payload r with
  | Json [(key, text)] =>
      (status r = 200%Z /\ (key = lit "message" \/ key = lit "answer"))
      \/ (status r = 500%Z /\ key = lit "error"
          /\ exists detail,
               text = lit "Error processing document: " ++ detail
               \/ text = lit "Error answering question: " ++ detail)
  | Json _ => False
  | Text s =>
      status r = 400%Z
      /\ (s = lit "No document uploaded." \/ s = lit "Question is required.")
  end.

(** The identifiers a trace shows being written to the index. *)
Definition upserted_ids (t : list event) : list jsstring :=
  List.concat (List.map (fun ev =>
    match ev with
    | Upserted records _ => List.map id records
    | _ => []
    end) t).

(** ** Environments to run the handlers against *)

(** Every provider is unreachable; the clock stands at the epoch. *)
Definition offline : environment unit := fun c w =>
  (match c return reply c with
   | DateNow => 0%Z
   | ExtractBuffer _ => Thrown (lit "fetch failed")
   | CreateDocuments _ _ _ => Thrown (lit "fetch failed")
   | EmbedDocuments _ => Thrown (lit "fetch failed")
   | IndexUpsert _ => Thrown (lit "fetch failed")
   | EmbedQuery _ => Thrown (lit "fetch failed")
   | IndexQuery _ => Thrown (lit "fetch failed")
   | RetrieverInvoke _ _ => Thrown (lit "fetch failed")
   | ModelInvoke _ => Thrown (lit "fetch failed")
   end, w).

(** A small deployment.  The extractor reads the bytes of the buffer as the
    text of a single page (an empty buffer is not a PDF); the splitter returns
    a short text as one chunk and nothing for an empty text; the embedding of
    a text is its length; the clock stays within one millisecond; the index
    accepts every batch; the chat model answers ["42"].  The state counts the
    similarity searches served so far, and [ranking n] is what the index
    holds, best first, when search number [n] arrives. *)
Definition embed (text : jsstring) : vector :=
  [PrimFloat.of_uint63 (Uint63.of_Z (Z.of_nat (length text)))].

Definition stored (text : jsstring) : Match :=
  {| match_id := lit "doc-1700000000000-0";
     match_score := 0.5%float;
     match_metadata := Some {| md_pageContent := text |} |}.

Definition deployment (ranking : nat -> list jsstring) : environment nat := fun c n =>
  match c return reply c * nat with
  | DateNow => (1700000000000%Z, n)
  | ExtractBuffer [] => (Thrown (lit "Invalid PDF structure"), n)
  | ExtractBuffer buffer =>
      (Ok {| pages := Some [ {| content := [ {| str := List.map Byte.to_N buffer |} ] |} ] |}, n)
  | CreateDocuments _ _ texts =>
      (Ok (List.map (fun t => {| pageContent := t |})
             (List.filter (fun t => negb (length t =? 0)%nat) texts)), n)
  | EmbedDocuments texts => (Ok (List.map embed texts), n)
  | IndexUpsert _ => (Ok tt, n)
  | EmbedQuery text => (Ok (embed text), n)
  | IndexQuery request =>
      (Ok {| matches := List.map stored (firstn (topK request) (ranking n)) |}, S n)
  | RetrieverInvoke k _ =>
      (Ok (List.map (fun t => {| pageContent := t |}) (firstn k (ranking n))), S n)
  | ModelInvoke _ => (Ok (lit "42"), n)
  end.

(** The index at first holds the chunk ["A"]; an upload that completes between
    the first and the second search adds the better ranked chunk ["B"]. *)
Definition reindexed (n : nat) : list jsstring :=
  if (n =? 0)%nat then [lit "A"] else [lit "B"; lit "A"].

(** ** Further views of a text and of a trace *)

(** The code units of a text that are not white space, in order. *)
Definition content_of (s : jsstring) : jsstring :=
  List.filter (fun c => negb (is_ws c)) s.

(** The clock readings a trace shows, in order. *)
Definition clock_readings (t : list event) : list Z :=
  List.concat (List.map (fun ev =>
    match ev with
    | ClockRead now => [now]
    | _ => []
    end) t).

(** The identifiers [docs.map] builds from clock readings, the first at
    [index]. *)
Fixpoint ids_from (index : nat) (clocks : list Z) : list jsstring :=
  match clocks with
  | [] => []
  | now :: clocks' => upsert_id now index :: ids_from (S index) clocks'
  end.

(** The calls that belong to ingestion, and those that belong to answering. *)
Definition is_ingestion_event (ev : event) : bool :=
  match ev with
  | Extracted _ _ | Split _ _ _ _ | ClockRead _ | EmbeddedDocuments _ _ | Upserted _ _ => true
  | _ => false
  end.

Definition is_answering_event (ev : event) : bool :=
  match ev with
  | EmbeddedQuery _ _ | Queried _ _ | Retrieved _ _ _ | Completed _ _ => true
  | _ => false
  end.

(** The message with which a collaborator of the answering pipeline
    rejected, if the event is such a rejection. *)
Definition answering_failure (ev : event) : option jsstring :=
  match ev with
  | EmbeddedQuery _ (Thrown e) => Some e
  | Queried _ (Thrown e) => Some e
  | Retrieved _ _ (Thrown e) => Some e
  | Completed _ (Thrown e) => Some e
  | _ => None
  end.

Definition has_metadata (m : Match) : bool :=
  match match_metadata m with Some _ => true | None => false end.

(** An environment in which some calls get a fixed reply. *)
Definition with_replies {W} (base : environment W) (fixed : forall c : call, option (reply c))
  : environment W := fun c w =>
  match fixed c with
  | Some r => (r, w)
  | None => base c w
  end.

(** The deployment with an embedding provider that returns three embeddings
    whatever it is given. *)
Definition three_embeddings : environment nat :=
  with_replies (deployment reindexed) (fun c =>
    match c return option (reply c) with
    | EmbedDocuments _ => Some (Ok [embed []; embed []; embed []])
    | _ => None
    end).

(** The deployment with an extractor that finds no page. *)
Definition no_pages : environment nat :=
  with_replies (deployment reindexed) (fun c =>
    match c return option (reply c) with
    | ExtractBuffer _ => Some (Ok {| pages := Some [] |})
    | _ => None
    end).

(** The deployment with an index whose only record was stored without
    metadata. *)
Definition bare_record : environment nat :=
  with_replies (deployment reindexed) (fun c =>
    match c return option (reply c) with
    | IndexQuery _ =>
        Some (Ok {| matches := [ {| match_id := lit "legacy";
                                    match_score := 0.25%float;
                                    match_metadata := None |} ] |})
    | _ => None
    end).

(** The deployment one millisecond later. *)
Definition later : environment nat :=
  with_replies (deployment reindexed) (fun c =>
    match c return option (reply c) with
    | DateNow => Some 1700000000001%Z
    | _ => None
    end).

(** The bytes of ["Hello world"]. *)
Definition hello_world : list Byte.byte :=
  [Byte.x48; Byte.x65; Byte.x6c; Byte.x6c; Byte.x6f; Byte.x20;
   Byte.x77; Byte.x6f; Byte.x72; Byte.x6c; Byte.x64].

(** The deployment with a splitter that cuts ["Hello world"] into the two
    overlapping chunks ["Hello"] and ["lo world"]; and the same with an
    embedding provider that returns a single embedding for them. *)
Definition two_chunks : environment nat :=
  with_replies (deployment reindexed) (fun c =>
    match c return option (reply c) with
    | CreateDocuments _ _ _ =>
        Some (Ok [ {| pageContent := lit "Hello" |}; {| pageContent := lit "lo world" |} ])
    | _ => None
    end).

Definition one_embedding : environment nat :=
  with_replies two_chunks (fun c =>
    match c return option (reply c) with
    | EmbedDocuments _ => Some (Ok [embed (lit "Hello")])
    | _ => None
    end).

(** The deployment with an index client that refuses an empty batch. *)
Definition strict_index : environment nat :=
  with_replies (deployment reindexed) (fun c =>
    match c return option (reply c) with
    | IndexUpsert [] => Some (Thrown (lit "Must pass in at least 1 record to upsert."))
    | _ => None
    end).

(** The literal text of the prompt template at position [n] (0: before the
    context, 2: between context and question, 4: after the question). *)
Definition template_literal (n : nat) : jsstring :=
  match nth_error contextualizedPrompt n with
  | Some (Literal text) => text
  | _ => []
  end.

(** * Properties *)

(** ** Text clean-up *)

Example normalize_sample :
  normalize ([SPACE; 9%N] ++ lit "Alpha" ++ [CR; LF; LF; 160%N] ++ lit "beta" ++ [8232%N]) = lit "Alpha beta".
Proof. reflexivity. Qed.

Example dec_sample :
  dec 1700000000000 = lit "1700000000000" /\ dec 0 = lit "0" /\ dec (-5) = lit "-5".
Proof. repeat split; reflexivity. Qed.

Lemma spaced_weaken s : spaced true s = true -> spaced false s = true.
Proof.
  destruct s as [|c s']; simpl; [done|].
  destruct (is_ws c); [|done].
  rewrite andb_false_r. discriminate.
Qed.

Lemma spaced_tail b c s : spaced b (c :: s) = true -> spaced (is_ws c) s = true.
Proof.
  simpl. destruct (is_ws c); [|done].
  intros H. apply andb_true_iff in H. tauto.
Qed.

Lemma collapse_from_spaced s : forall b, spaced b (collapse_from b s) = true.
Proof.
  induction s as [|c s' IH]; intros b; simpl; [done|].
  destruct (is_ws c) eqn:Hc.
  - destruct b; [apply IH|].
    simpl. apply IH.
  - simpl. rewrite Hc. apply IH.
Qed.

Lemma collapse_from_fixed s : forall b, spaced b s = true -> collapse_from b s = s.
Proof.
  induction s as [|c s' IH]; intros b; simpl; [done|].
  destruct (is_ws c).
  - intros H. apply andb_true_iff in H as [H Hs'].
    apply andb_true_iff in H as [Hc Hb].
    apply N.eqb_eq in Hc. destruct b; [discriminate|].
    rewrite (IH true Hs'). by subst c.
  - intros H. by rewrite (IH false H).
Qed.

Lemma replace_newlines_spaced s : forall b, spaced b s = true -> replace_newlines s = s.
Proof.
  induction s as [|c s' IH]; intros b H; [done|].
  pose proof (spaced_tail _ _ _ H) as Hs'.
  simpl in H |- *.
  destruct (c =? CR)%N eqn:Hcr.
  { apply N.eqb_eq in Hcr. subst c. simpl in H. discriminate. }
  destruct (c =? LF)%N eqn:Hlf.
  { apply N.eqb_eq in Hlf. subst c. simpl in H. discriminate. }
  by rewrite (IH _ Hs').
Qed.

Lemma trim_start_spaced s : forall b, spaced b s = true -> spaced false (trim_start s) = true.
Proof.
  induction s as [|c s' IH]; intros b H; [done|].
  pose proof (spaced_tail _ _ _ H) as Hs'.
  simpl in H |- *. destruct (is_ws c) eqn:Hc.
  - by apply (IH true).
  - simpl. by rewrite Hc.
Qed.

Lemma trim_end_spaced s : forall b, spaced b s = true -> spaced b (trim_end s) = true.
Proof.
  induction s as [|c s' IH]; intros b H; [done|].
  pose proof (spaced_tail _ _ _ H) as Hs'.
  apply IH in Hs'.
  simpl in H |- *. destruct (trim_end s') as [|d r] eqn:Hr.
  - destruct (is_ws c) eqn:Hc; [done|]. simpl. by rewrite Hc.
  - remember (d :: r) as t. simpl. destruct (is_ws c); [|done].
    apply andb_true_iff in H as [H _]. by rewrite H.
Qed.

Lemma trim_start_shape s :
  trim_start s = [] \/ exists c r, trim_start s = c :: r /\ is_ws c = false.
Proof.
  induction s as [|c s' IH]; simpl; [by left|].
  destruct (is_ws c) eqn:Hc; [done|]. right. by exists c, s'.
Qed.

Lemma trim_end_idem s : trim_end (trim_end s) = trim_end s.
Proof.
  induction s as [|c s' IH]; simpl; [done|].
  destruct (trim_end s') as [|d r] eqn:Hr.
  - destruct (is_ws c) eqn:Hc; [done|]. simpl. by rewrite Hc.
  - remember (d :: r) as t. simpl. rewrite IH. by subst t.
Qed.

Lemma trim_end_head c s : is_ws c = false -> exists r, trim_end (c :: s) = c :: r.
Proof.
  intros Hc. simpl. destruct (trim_end s) as [|d r]; rewrite ?Hc; eauto.
Qed.

Lemma trim_idem s : trim (trim s) = trim s.
Proof.
  unfold trim. destruct (trim_start_shape s) as [->|(c & r & -> & Hc)]; [done|].
  destruct (trim_end_head c r Hc) as [r' Hr']. rewrite Hr'.
  simpl. rewrite Hc, <- Hr'. apply trim_end_idem.
Qed.

Lemma trim_spaced s b : spaced b s = true -> spaced false (trim s) = true.
Proof.
  intros H. unfold trim. eapply trim_end_spaced, trim_start_spaced, H.
Qed.

Lemma normalize_collapse s : normalize s = trim (collapse_ws s).
Proof.
  unfold normalize, collapse_ws.
  by rewrite (replace_newlines_spaced _ false (collapse_from_spaced s false)).
Qed.

Lemma normalize_spaced s : spaced false (normalize s) = true.
Proof.
  rewrite normalize_collapse. eapply trim_spaced, collapse_from_spaced.
Qed.

(** C8: the clean-up of lines 71-74 (collapse white-space runs, replace line
    breaks, trim) is idempotent: cleaning a cleaned-up text returns it
    unchanged. *)
Theorem normalize_idempotent (s : jsstring) : normalize (normalize s) = normalize s.
Proof.
  rewrite (normalize_collapse (normalize s)). unfold collapse_ws.
  rewrite (collapse_from_fixed _ false (normalize_spaced s)).
  rewrite normalize_collapse. apply trim_idem.
Qed.

(** ** Running programs *)

Lemma run_bind {W A B} (env : environment W) (p : prog A) (f : A -> prog B) (w : W) :
  run env (bind p f) w =
    let '(t1, o1, w1) := run env p w in
    match o1 with
    | Returned a => let '(t2, o2, w2) := run env (f a) w1 in (t1 ++ t2, o2, w2)
    | Uncaught e => (t1, Uncaught e, w1)
    end.
Proof.
  revert w. induction p as [a|e|c k IH]; intros w; simpl.
  - by destruct (run env (f a) w) as [[t2 o2] w2].
  - done.
  - destruct (env c w) as [r w1]. rewrite IH.
    destruct (run env (k r) w1) as [[t1 o1] w1']. destruct o1 as [a|e]; [|done].
    by destruct (run env (f a) w1') as [[t2 o2] w2].
Qed.

Lemma run_catch {W A} (env : environment W) (p : prog A) (h : jsstring -> prog A) (w : W) :
  run env (catch p h) w =
    let '(t1, o1, w1) := run env p w in
    match o1 with
    | Returned a => (t1, Returned a, w1)
    | Uncaught e => let '(t2, o2, w2) := run env (h e) w1 in (t1 ++ t2, o2, w2)
    end.
Proof.
  revert w. induction p as [a|e|c k IH]; intros w; simpl.
  - done.
  - by destruct (run env (h e) w) as [[t2 o2] w2].
  - destruct (env c w) as [r w1]. rewrite IH.
    destruct (run env (k r) w1) as [[t1 o1] w1']. destruct o1 as [a|e]; [done|].
    by destruct (run env (h e) w1') as [[t2 o2] w2].
Qed.

Lemma run_settle {W A} (env : environment W) (r : result A) (w : W) :
  run env (settle r) w =
    ([], match r with Ok a => Returned a | Thrown e => Uncaught e end, w).
Proof. by destruct r. Qed.

Lemma run_build_requests {W} (env : environment W) docs : forall index w,
  exists clocks w',
    length clocks = length docs /\
    run env (build_requests index docs) w =
      (List.map ClockRead clocks, Returned (stamp index docs clocks), w').
Proof.
  induction docs as [|doc docs' IH]; intros index w; simpl.
  - by exists [], w.
  - destruct (env DateNow w) as [now w1].
    destruct (IH (S index) w1) as (clocks & w' & Hlen & Hrun).
    exists (now :: clocks), w'. split; [simpl; lia|].
    rewrite run_bind, Hrun. simpl. by rewrite app_nil_r.
Qed.

(** ** The runs of the upload handler *)

Lemma upload_pipeline_run {W} (env : environment W) buffer w :
  upload_run buffer (trace_of (run env (upload_pipeline buffer) w))
                    (outcome_of (run env (upload_pipeline buffer) w)).
Proof.
  unfold upload_pipeline. cbn [run bind].
  destruct (env (ExtractBuffer buffer) w) as [[data|e] w1]; cbn [run bind settle];
    [|apply upload_extraction_rejected].
  destruct (extracted_text data) as [text|e] eqn:Htext; cbn [run bind settle];
    [|by apply upload_no_pages].
  destruct (env (CreateDocuments 1000 200 [normalize text]) w1) as [[docs|e] w2];
    cbn [run bind settle]; [|by apply upload_split_rejected].
  rewrite run_bind.
  destruct (run_build_requests env docs 0 w2) as (clocks & w3 & Hlen & ->).
  cbn [run bind].
  destruct (env (EmbedDocuments (List.map pageContent docs)) w3) as [[embeddings|e] w4];
    cbn [run bind settle];
    [|by apply (upload_embedding_rejected buffer data text docs clocks e)].
  destruct (assign_embeddings 0 embeddings (stamp 0 docs clocks)) as [records|e] eqn:Hassign;
    cbn [run bind settle];
    [|by apply (upload_assignment_failed buffer data text docs clocks embeddings e)].
  destruct (env (IndexUpsert records) w4) as [r w5].
  pose proof (upload_upsert_settled buffer data text docs clocks embeddings records r
                Htext Hlen Hassign) as Hrun.
  by destruct r as [[]|e].
Qed.

Lemma run_upload_document {W} (env : environment W) buffer w :
  trace_of (run env (upload_document (Some buffer)) w)
    = trace_of (run env (upload_pipeline buffer) w)
  /\ outcome_of (run env (upload_document (Some buffer)) w)
    = Returned (recovered "Error processing document: "
                  (outcome_of (run env (upload_pipeline buffer) w))).
Proof.
  unfold upload_document. rewrite run_catch.
  destruct (run env (upload_pipeline buffer) w) as [[t o] w1].
  destruct o as [r|e]; simpl; [done|]. by rewrite app_nil_r.
Qed.

(** ** The runs of the question handler *)

Lemma relevant_docs_length ms docs : relevant_docs ms = Ok docs -> length docs = length ms.
Proof.
  revert docs. induction ms as [|m ms' IH]; intros docs; simpl.
  - by intros [= <-].
  - destruct (match_metadata m); [|done].
    destruct (relevant_docs ms') as [docs'|]; [|done].
    intros [= <-]. simpl. by rewrite (IH docs').
Qed.

Lemma answer_pipeline_run {W} (env : environment W) q w :
  ask_run q (trace_of (run env (answer_pipeline q) w))
            (outcome_of (run env (answer_pipeline q) w)).
Proof.
  unfold answer_pipeline. cbn [run bind]. 
  destruct (env (EmbedQuery q) w) as [[v|e] w1]; cbn [run bind settle];
    [|apply ask_embedding_rejected].
  fold (top5 v).
  destruct (env (IndexQuery (top5 v)) w1) as [[found|e] w2]; cbn [run bind settle];
    [|apply ask_query_rejected].
  destruct (relevant_docs (matches found)) as [relevantDocs|e] eqn:Hdocs;
    cbn [run bind settle]; [|by apply ask_match_without_metadata].
  pose proof (relevant_docs_length _ _ Hdocs) as Hlen.
  destruct relevantDocs as [|doc relevantDocs']; cbn [length Nat.eqb run].
  { apply ask_nothing_found. by destruct (matches found). }
  assert (matches found <> []) as Hne by (by destruct (matches found)).
  unfold ragChain. cbn [run bind].
  destruct (env (RetrieverInvoke 5 q) w2) as [[docsFromRetriever|e] w3];
    cbn [run bind settle];
    [|by apply (ask_retriever_rejected q v found (doc :: relevantDocs') e)].
  fold (rendered_prompt (join [LF; LF] (List.map pageContent docsFromRetriever)) q).
  set (prompt := rendered_prompt _ q).
  destruct (env (ModelInvoke prompt) w3) as [r w4].
  pose proof (ask_completion_settled q v found (doc :: relevantDocs') docsFromRetriever r
                Hdocs Hne) as Hrun.
  fold prompt in Hrun. by destruct r.
Qed.

Lemma run_ask_question {W} (env : environment W) q w :
  q <> [] ->
  trace_of (run env (ask_question (asking q)) w) = trace_of (run env (answer_pipeline q) w)
  /\ outcome_of (run env (ask_question (asking q)) w)
    = Returned (recovered "Error answering question: "
                  (outcome_of (run env (answer_pipeline q) w))).
Proof.
  intros Hq. destruct q as [|c q']; [done|].
  unfold ask_question, body_question. rewrite run_catch.
  destruct (run env (answer_pipeline (c :: q')) w) as [[t o] w1].
  destruct o as [r|e]; simpl; [done|]. by rewrite app_nil_r.
Qed.

(** ** The HTTP surface *)

(** C7 (as stated, refuted): a question of one space is blank, yet it is not
    rejected: the embedding provider, the vector index, the retriever and the
    chat model are all called, and the response is 200. *)
Lemma ask_whitespace_question_not_rejected :
  blank (Some [SPACE]) = true /\
  trace_of (run (deployment (fun _ => [lit "A"])) (ask_question (asking [SPACE])) 0%nat) =
    [ EmbeddedQuery [SPACE] (Ok (embed [SPACE]));
      Queried (top5 (embed [SPACE])) (Ok {| matches := [stored (lit "A")] |});
      Retrieved 5 [SPACE] (Ok [ {| pageContent := lit "A" |} ]);
      Completed (rendered_prompt (lit "A") [SPACE]) (Ok (lit "42")) ] /\
  outcome_of (run (deployment (fun _ => [lit "A"])) (ask_question (asking [SPACE])) 0%nat) =
    Returned {| status := 200; payload := Json [(lit "answer", lit "42")] |}.
Proof. repeat split; vm_compute; reflexivity. Qed.

(** C7 (amended): a request with a parsed body whose question is missing or
    the empty string is answered with status 400 and the text "Question is
    required.", and no external call is made. *)
Theorem ask_falsy_question_rejected (b : RequestBody) :
  falsy (body_question b) = true ->
  forall W (env : environment W) (w : W),
    run env (ask_question (Some b)) w =
      ([], Returned {| status := 400; payload := Text (lit "Question is required.") |}, w).
Proof. intros Hq W env w. by destruct b as [[[|c q']|]]. Qed.

Lemma ask_falsy_question_rejected_witness :
  falsy (body_question {| body_question := None |}) = true /\
  run offline (ask_question (Some {| body_question := None |})) tt =
    ([], Returned {| status := 400; payload := Text (lit "Question is required.") |}, tt).
Proof.
  split; [reflexivity|].
  apply (ask_falsy_question_rejected {| body_question := None |}). reflexivity.
Defined.

(** Without a parsed body the handler calls nothing and sends nothing: the
    destructuring of line 122 throws, outside the [try]. *)
Lemma ask_without_body_throws {W} (env : environment W) (w : W) :
  run env (ask_question None) w =
    ([], Uncaught (lit "Cannot destructure property 'question' of 'req.body' as it is undefined."),
     w).
Proof. reflexivity. Qed.

(** C9 (as stated, refuted): the response to an upload without the [document]
    field has status 400 and a plain-text body, not a JSON body. *)
Lemma upload_without_file_is_plain_text :
  outcome_of (run offline (handle (PostUploadDocument None)) tt) =
    Returned {| status := 400; payload := Text (lit "No document uploaded.") |} /\
  is_json (Text (lit "No document uploaded.")) = false.
Proof. split; reflexivity. Qed.

(** C9 (amended): every request that reaches its handler (a question request
    with a parsed body) is answered by the handler, with a status and a
    human-readable text: a JSON object with one member for the statuses 200
    ([message] or [answer]) and 500 ([error]), and a plain-text body for the
    two 400 responses. *)
Theorem every_response_documented (req : request) :
  req <> PostAskQuestion None ->
  forall W (env : environment W) (w : W),
    exists r, outcome_of (run env (handle req) w) = Returned r /\ documented r.
Proof.
  intros Hbody W env w. destruct req as [|[buffer|]|[[[[|c q']|]]|]]; unfold handle; [..|done].
  - eexists. split; [reflexivity|]. unfold documented. simpl. eauto 10.
  - destruct (run_upload_document env buffer w) as [_ ->].
    eexists. split; [reflexivity|].
    destruct (upload_pipeline_run env buffer w)
      as [e|data e|data text e|data text docs clocks e
         |data text docs clocks embeddings e
         |data text docs clocks embeddings records [[]|e]];
      unfold documented; simpl; eauto 10.
  - eexists. split; [reflexivity|]. unfold documented. simpl. eauto 10.
  - eexists. split; [reflexivity|]. unfold documented. simpl. eauto 10.
  - destruct (run_ask_question env (c :: q') w) as [_ ->]; [done|].
    eexists. split; [reflexivity|].
    destruct (answer_pipeline_run env (c :: q') w)
      as [e|v e|v found e|v found|v found relevantDocs e
         |v found relevantDocs docsFromRetriever [answer|e]];
      unfold documented; simpl; eauto 10.
  - eexists. split; [reflexivity|]. unfold documented. simpl. eauto 10.
Qed.

Lemma every_response_documented_witness :
  PostAskQuestion (asking (lit "Why?")) <> PostAskQuestion None /\
  exists r,
    outcome_of (run offline (handle (PostAskQuestion (asking (lit "Why?")))) tt) = Returned r
    /\ documented r.
Proof.
  assert (PostAskQuestion (asking (lit "Why?")) <> PostAskQuestion None) as Hbody
    by discriminate.
  split; [exact Hbody|].
  exact (every_response_documented (PostAskQuestion (asking (lit "Why?"))) Hbody unit offline tt).
Defined.

(** ** Answering *)

(** C2: whenever the vector query of an answering request returns zero
    matches, the response is 200 with the fixed fallback answer and the chat
    model is not invoked. *)
Theorem no_match_short_circuits (req_body : option RequestBody) :
  forall W (env : environment W) (w : W) request found,
    matches found = [] ->
    In (Queried request (Ok found)) (trace_of (run env (ask_question req_body) w)) ->
    outcome_of (run env (ask_question req_body) w) =
      Returned {| status := 200; payload := Json [(lit "answer", fallback_answer)] |}
    /\ forallb (fun ev => negb (is_completion ev)) (trace_of (run env (ask_question req_body) w)) = true.
Proof.
  intros W env w request found Hnone Hin.
  destruct req_body as [[[[|c q']|]]|]; [by destruct Hin| |by destruct Hin..].
  destruct (run_ask_question env (c :: q') w) as [Ht Ho]; [done|].
  rewrite Ht in Hin |- *. rewrite Ho. clear Ht Ho.
  destruct (answer_pipeline_run env (c :: q') w)
    as [e|v e|v found' e|v found'|v found' relevantDocs e
       |v found' relevantDocs docsFromRetriever r];
    simpl in Hin; destruct_or?; simplify_eq; try done.
  rewrite Hnone in *. simplify_eq.
Qed.

Lemma no_match_short_circuits_witness :
  matches {| matches := [] |} = [] /\
  In (Queried (top5 (embed (lit "Why?"))) (Ok {| matches := [] |}))
     (trace_of (run (deployment (fun _ => [])) (ask_question (asking (lit "Why?"))) 0%nat)) /\
  outcome_of (run (deployment (fun _ => [])) (ask_question (asking (lit "Why?"))) 0%nat) =
    Returned {| status := 200; payload := Json [(lit "answer", fallback_answer)] |}
  /\ forallb (fun ev => negb (is_completion ev))
       (trace_of (run (deployment (fun _ => [])) (ask_question (asking (lit "Why?"))) 0%nat)) = true.
Proof.
  split; [reflexivity|].
  split; [vm_compute; tauto|].
  apply (no_match_short_circuits (asking (lit "Why?")) nat (deployment (fun _ => [])) 0%nat
           (top5 (embed (lit "Why?"))) {| matches := [] |}).
  - reflexivity.
  - vm_compute. tauto.
Defined.

Lemma rendered_prompt_shape :
  exists head middle tail,
    contextualizedPrompt =
      [Literal head; Input context; Literal middle; Input question; Literal tail]
    /\ forall combinedContext input,
         rendered_prompt combinedContext input =
           head ++ combinedContext ++ middle ++ input ++ tail.
Proof.
  do 3 eexists. split; [reflexivity|].
  intros combinedContext input. unfold rendered_prompt, format, contextualizedPrompt.
  cbn [List.map List.concat]. by rewrite app_nil_r.
Qed.

(** C1 (as stated, refuted): the vector query of the handler returns the one
    match ["A"], but the context in the prompt is ["B\n\nA"]: it is built from
    what the retriever of the chain finds in its own, later search, not from
    the matches of the query. *)
Lemma context_differs_from_query_matches :
  trace_of (run (deployment reindexed) (ask_question (asking (lit "What?"))) 0%nat) =
    [ EmbeddedQuery (lit "What?") (Ok (embed (lit "What?")));
      Queried (top5 (embed (lit "What?"))) (Ok {| matches := [stored (lit "A")] |});
      Retrieved 5 (lit "What?") (Ok [ {| pageContent := lit "B" |}; {| pageContent := lit "A" |} ]);
      Completed (rendered_prompt (lit "B" ++ [LF; LF] ++ lit "A") (lit "What?")) (Ok (lit "42")) ]
  /\ List.map match_text [stored (lit "A")] = [Some (lit "A")]
  /\ rendered_prompt (lit "B" ++ [LF; LF] ++ lit "A") (lit "What?")
     <> rendered_prompt (join [LF; LF] [lit "A"]) (lit "What?").
Proof.
  split; [vm_compute; reflexivity|].
  split; [reflexivity|].
  vm_compute. discriminate.
Qed.

(** C1 (amended): in every answering request whose vector query returned
    K >= 1 matches and whose chain got documents from the retriever, the
    retriever was asked for 5 documents with the literal question, and the
    chat model is invoked exactly once, with the template rendered on the
    literal question and on the context made of the page contents of the
    retriever's documents, in the order returned, joined by a blank line. *)
Theorem prompt_built_from_retriever (req_body : option RequestBody) :
  forall W (env : environment W) (w : W) request found k input docs,
    In (Queried request (Ok found)) (trace_of (run env (ask_question req_body) w)) ->
    matches found <> [] ->
    In (Retrieved k input (Ok docs)) (trace_of (run env (ask_question req_body) w)) ->
    k = 5%nat /\ req_body = asking input /\
    exists r,
      List.filter is_completion (trace_of (run env (ask_question req_body) w)) =
        [Completed (rendered_prompt (join [LF; LF] (List.map pageContent docs)) input) r].
Proof.
  intros W env w request found k input docs Hquery Hsome Hin.
  destruct req_body as [[[[|c q']|]]|]; [by destruct Hin| |by destruct Hin..].
  destruct (run_ask_question env (c :: q') w) as [Ht _]; [done|].
  rewrite Ht in Hin |- *. clear Ht Hquery.
  destruct (answer_pipeline_run env (c :: q') w)
    as [e|v e|v found' e|v found'|v found' relevantDocs e
       |v found' relevantDocs docsFromRetriever r];
    simpl in Hin; destruct_or?; simplify_eq; try done.
  repeat split. by exists r.
Qed.

Lemma prompt_built_from_retriever_witness :
  In (Queried (top5 (embed (lit "What?"))) (Ok {| matches := [stored (lit "A")] |}))
     (trace_of (run (deployment reindexed) (ask_question (asking (lit "What?"))) 0%nat)) /\
  matches {| matches := [stored (lit "A")] |} <> [] /\
  In (Retrieved 5 (lit "What?") (Ok [ {| pageContent := lit "B" |}; {| pageContent := lit "A" |} ]))
     (trace_of (run (deployment reindexed) (ask_question (asking (lit "What?"))) 0%nat)) /\
  (5 = 5 /\ asking (lit "What?") = asking (lit "What?") /\
   exists r,
     List.filter is_completion
       (trace_of (run (deployment reindexed) (ask_question (asking (lit "What?"))) 0%nat)) =
       [Completed
          (rendered_prompt
             (join [LF; LF]
                (List.map pageContent [ {| pageContent := lit "B" |}; {| pageContent := lit "A" |} ]))
             (lit "What?")) r])%nat.
Proof.
  assert (In (Queried (top5 (embed (lit "What?"))) (Ok {| matches := [stored (lit "A")] |}))
            (trace_of (run (deployment reindexed) (ask_question (asking (lit "What?"))) 0%nat)))
    as Hquery by (vm_compute; tauto).
  assert (matches {| matches := [stored (lit "A")] |} <> []) as Hsome by discriminate.
  assert (In (Retrieved 5 (lit "What?")
                (Ok [ {| pageContent := lit "B" |}; {| pageContent := lit "A" |} ]))
            (trace_of (run (deployment reindexed) (ask_question (asking (lit "What?"))) 0%nat)))
    as Hin by (vm_compute; tauto).
  split; [exact Hquery|]. split; [exact Hsome|]. split; [exact Hin|].
  exact (prompt_built_from_retriever (asking (lit "What?")) nat (deployment reindexed) 0%nat
           _ _ _ _ _ Hquery Hsome Hin).
Defined.

(** A prompt reaches the chat model only from the chain, after the retriever
    returned documents. *)
Lemma completion_needs_retrieval (req_body : option RequestBody) :
  forall W (env : environment W) (w : W) prompt r,
    In (Completed prompt r) (trace_of (run env (ask_question req_body) w)) ->
    exists input docs,
      req_body = asking input
      /\ In (Retrieved 5 input (Ok docs)) (trace_of (run env (ask_question req_body) w))
      /\ prompt = rendered_prompt (join [LF; LF] (List.map pageContent docs)) input.
Proof.
  intros W env w prompt r Hin.
  destruct req_body as [[[[|c q']|]]|]; [by destruct Hin| |by destruct Hin..].
  destruct (run_ask_question env (c :: q') w) as [Ht _]; [done|].
  rewrite Ht in Hin |- *. clear Ht.
  destruct (answer_pipeline_run env (c :: q') w)
    as [e|v e|v found' e|v found'|v found' relevantDocs e
       |v found' relevantDocs docsFromRetriever r'];
    simpl in Hin; destruct_or?; simplify_eq; try done.
  exists (c :: q'), docsFromRetriever. simpl. tauto.
Qed.

(** ** Ingestion *)

Lemma ingestion_prefix_quiet buffer data text docs clocks ev :
  extracted_text data = Ok text ->
  In ev (ingestion_prefix buffer data text docs clocks) ->
  ingestion_failure ev = None /\ is_upsert ev = false.
Proof.
  intros Htext [<-|[<-|Hin]]; simpl.
  - by rewrite Htext.
  - done.
  - apply in_map_iff in Hin as (now & <- & _). done.
Qed.

(** C10: when extraction (a rejection of the extractor, or no pages), chunking
    or the batch embedding call of an ingestion fails, the request makes no
    upsert call, and the response is 500 with the error message. *)
Theorem failed_ingestion_writes_nothing (buffer : list Byte.byte) :
  forall W (env : environment W) (w : W) ev e,
    In ev (trace_of (run env (upload_document (Some buffer)) w)) ->
    ingestion_failure ev = Some e ->
    forallb (fun ev => negb (is_upsert ev))
      (trace_of (run env (upload_document (Some buffer)) w)) = true
    /\ outcome_of (run env (upload_document (Some buffer)) w) =
         Returned {| status := 500;
                     payload := Json [(lit "error", lit "Error processing document: " ++ e)] |}.
Proof.
  intros W env w ev e Hin Hfail.
  destruct (run_upload_document env buffer w) as [Ht Ho].
  rewrite Ht in Hin |- *. rewrite Ho. clear Ht Ho.
  destruct (upload_pipeline_run env buffer w)
    as [e'|data e' Htext|data text e' Htext|data text docs clocks e' Htext Hlen
       |data text docs clocks embeddings e' Htext Hlen Hassign
       |data text docs clocks embeddings records r Htext Hlen Hassign].
  - destruct Hin as [<-|[]]. simpl in Hfail. by simplify_eq.
  - destruct Hin as [<-|[]]. simpl in Hfail. rewrite Htext in Hfail. by simplify_eq.
  - destruct Hin as [<-|[<-|[]]]; simpl in Hfail; [by rewrite Htext in Hfail|].
    by simplify_eq.
  - apply in_app_iff in Hin as [Hin|[<-|[]]].
    { apply (ingestion_prefix_quiet _ _ _ _ _ _ Htext) in Hin as [Hin _]. congruence. }
    simpl in Hfail. simplify_eq. split; [|done].
    apply forallb_forall. intros ev [Hin|[<-|[]]]%in_app_iff; [|done].
    apply (ingestion_prefix_quiet _ _ _ _ _ _ Htext) in Hin as [_ ->]. done.
  - apply in_app_iff in Hin as [Hin|[<-|[]]]; [|done].
    apply (ingestion_prefix_quiet _ _ _ _ _ _ Htext) in Hin as [Hin _]. congruence.
  - apply in_app_iff in Hin as [Hin|[<-|[<-|[]]]]; [|done..].
    apply (ingestion_prefix_quiet _ _ _ _ _ _ Htext) in Hin as [Hin _]. congruence.
Qed.

Lemma failed_ingestion_writes_nothing_witness :
  In (Extracted [] (Thrown (lit "Invalid PDF structure")))
     (trace_of (run (deployment reindexed) (upload_document (Some [])) 0%nat)) /\
  ingestion_failure (Extracted [] (Thrown (lit "Invalid PDF structure")))
    = Some (lit "Invalid PDF structure") /\
  forallb (fun ev => negb (is_upsert ev))
    (trace_of (run (deployment reindexed) (upload_document (Some [])) 0%nat)) = true /\
  outcome_of (run (deployment reindexed) (upload_document (Some [])) 0%nat) =
    Returned {| status := 500;
                payload := Json [(lit "error",
                                  lit "Error processing document: "
                                  ++ lit "Invalid PDF structure")] |}.
Proof.
  split; [vm_compute; tauto|]. split; [reflexivity|].
  apply (failed_ingestion_writes_nothing [] nat (deployment reindexed) 0%nat
           (Extracted [] (Thrown (lit "Invalid PDF structure")))).
  - vm_compute. tauto.
  - reflexivity.
Defined.

Lemma assign_embeddings_spec chunkEmbeddings : forall index upsertRequests records,
  assign_embeddings index chunkEmbeddings upsertRequests = Ok records ->
  records = take index upsertRequests
            ++ with_embeddings chunkEmbeddings (drop index upsertRequests)
  /\ (chunkEmbeddings = [] \/ index + length chunkEmbeddings <= length upsertRequests).
Proof.
  induction chunkEmbeddings as [|embedding rest IH]; intros index reqs records; simpl.
  - intros [= <-]. split; [|by left].
    destruct (drop index reqs) eqn:Hdrop; rewrite <- Hdrop; by rewrite take_drop.
  - destruct (reqs !! index) as [r|] eqn:Hr; [|done].
    intros Hassign. apply IH in Hassign as [-> Hlen].
    pose proof (lookup_lt_Some _ _ _ Hr) as Hlt.
    rewrite length_insert in Hlen. split; [|right; destruct Hlen as [->|]; simpl; lia].
    rewrite (take_S_r _ _ (set_values embedding r)) by (by apply list_lookup_insert_eq).
    rewrite take_insert_ge by lia. rewrite drop_insert_lt by lia.
    rewrite (drop_S _ _ _ Hr). by rewrite <- app_assoc.
Qed.

Lemma with_embeddings_length chunkEmbeddings : forall reqs,
  length (with_embeddings chunkEmbeddings reqs) = length reqs.
Proof.
  induction chunkEmbeddings as [|e es IH]; intros [|r rs]; simpl; auto.
Qed.

Lemma with_embeddings_texts chunkEmbeddings : forall reqs,
  List.map record_text (with_embeddings chunkEmbeddings reqs) = List.map record_text reqs.
Proof.
  induction chunkEmbeddings as [|e es IH]; intros [|r rs]; simpl; auto.
  by rewrite IH.
Qed.

Lemma with_embeddings_ids chunkEmbeddings : forall reqs,
  List.map id (with_embeddings chunkEmbeddings reqs) = List.map id reqs.
Proof.
  induction chunkEmbeddings as [|e es IH]; intros [|r rs]; simpl; auto.
  by rewrite IH.
Qed.

Lemma with_embeddings_lookup chunkEmbeddings : forall reqs i e,
  chunkEmbeddings !! i = Some e ->
  i < length reqs ->
  values <$> with_embeddings chunkEmbeddings reqs !! i = Some e.
Proof.
  induction chunkEmbeddings as [|e' es IH]; intros [|r rs] i e; simpl; try done.
  - intros _ Hlt. lia.
  - destruct i as [|i]; simpl.
    + by intros [= ->].
    + intros He Hlt. apply IH; [done|lia].
Qed.

Lemma with_embeddings_values chunkEmbeddings : forall reqs,
  length chunkEmbeddings = length reqs ->
  List.map values (with_embeddings chunkEmbeddings reqs) = chunkEmbeddings.
Proof.
  induction chunkEmbeddings as [|e es IH]; intros [|r rs]; simpl; try done.
  intros [= Hlen]. by rewrite IH.
Qed.

Lemma stamp_length docs : forall index clocks,
  length clocks = length docs -> length (stamp index docs clocks) = length docs.
Proof.
  induction docs as [|doc docs' IH]; intros index [|now clocks']; simpl; try done.
  intros [= Hlen]. by rewrite IH.
Qed.

Lemma stamp_texts docs : forall index clocks,
  length clocks = length docs ->
  List.map record_text (stamp index docs clocks) = List.map pageContent docs.
Proof.
  induction docs as [|doc docs' IH]; intros index [|now clocks']; simpl; try done.
  intros [= Hlen]. by rewrite IH.
Qed.

Lemma ingestion_prefix_kind buffer data text docs clocks ev :
  In ev (ingestion_prefix buffer data text docs clocks) ->
  match ev with
  | Extracted _ _ | Split _ _ _ _ | ClockRead _ => True
  | _ => False
  end.
Proof.
  intros [<-|[<-|Hin]]; [done..|].
  apply in_map_iff in Hin as (now & <- & _). done.
Qed.

(** The upsert call of an ingestion, if there is one, comes after the batch
    embedding call resolved, and carries the stamped requests with the
    embeddings assigned. *)
Lemma upsert_call_shape (buffer : list Byte.byte) :
  forall W (env : environment W) (w : W) records r,
    In (Upserted records r) (trace_of (run env (upload_document (Some buffer)) w)) ->
    exists data text docs clocks embeddings,
      trace_of (run env (upload_document (Some buffer)) w) =
        ingestion_prefix buffer data text docs clocks
        ++ [EmbeddedDocuments (List.map pageContent docs) (Ok embeddings);
            Upserted records r]
      /\ length clocks = length docs
      /\ length embeddings <= length docs
      /\ records = with_embeddings embeddings (stamp 0 docs clocks).
Proof.
  intros W env w records r Hin.
  destruct (run_upload_document env buffer w) as [Ht _].
  rewrite Ht in Hin |- *. clear Ht.
  destruct (upload_pipeline_run env buffer w)
    as [e'|data e' Htext|data text e' Htext|data text docs clocks e' Htext Hlen
       |data text docs clocks embeddings e' Htext Hlen Hassign
       |data text docs clocks embeddings records' r' Htext Hlen Hassign].
  - by destruct Hin as [?|[]].
  - by destruct Hin as [?|[]].
  - by destruct Hin as [?|[?|[]]].
  - apply in_app_iff in Hin as [Hin|[?|[]]]; [|done].
    by apply ingestion_prefix_kind in Hin.
  - apply in_app_iff in Hin as [Hin|[?|[]]]; [|done].
    by apply ingestion_prefix_kind in Hin.
  - apply in_app_iff in Hin as [Hin|[?|[Heq|[]]]]; [by apply ingestion_prefix_kind in Hin|done|].
    injection Heq as -> ->.
    apply assign_embeddings_spec in Hassign as [Hrecords Hle].
    rewrite take_0, drop_0 in Hrecords. simpl in Hrecords.
    exists data, text, docs, clocks, embeddings. repeat split; [done| |done].
    rewrite (stamp_length _ _ _ Hlen) in Hle. destruct Hle as [->|]; simpl; lia.
Qed.

(** C6: in every ingestion that reaches the upsert, the texts submitted to the
    batch embedding call are the chunk texts of the upserted entries, in
    order, and entry [i] stores the [i]-th embedding returned; with one
    embedding per text, the stored embeddings are the returned ones, in
    order. *)
Theorem embeddings_matched_by_position (buffer : list Byte.byte) :
  forall W (env : environment W) (w : W) texts embeddings records r,
    In (EmbeddedDocuments texts (Ok embeddings))
       (trace_of (run env (upload_document (Some buffer)) w)) ->
    In (Upserted records r) (trace_of (run env (upload_document (Some buffer)) w)) ->
    List.map record_text records = texts
    /\ (forall i e, embeddings !! i = Some e -> values <$> records !! i = Some e)
    /\ (length embeddings = length texts -> List.map values records = embeddings).
Proof.
  intros W env w texts embeddings records r Hembedded Hupserted.
  destruct (upsert_call_shape buffer W env w records r Hupserted)
    as (data & text & docs & clocks & embeddings' & Ht & Hlen & Hle & ->).
  rewrite Ht in Hembedded.
  apply in_app_iff in Hembedded as [Hin|[Heq|[?|[]]]];
    [by apply ingestion_prefix_kind in Hin| |done].
  injection Heq as <- <-.
  pose proof (stamp_length docs 0 clocks Hlen) as Hstamp.
  split; [|split].
  - rewrite with_embeddings_texts. by apply stamp_texts.
  - intros i e He. apply with_embeddings_lookup; [done|].
    apply lookup_lt_Some in He. lia.
  - rewrite length_map. intros Heq. apply with_embeddings_values. lia.
Qed.

Lemma embeddings_matched_by_position_witness :
  In (EmbeddedDocuments [lit "Hello"; lit "lo world"]
        (Ok [embed (lit "Hello"); embed (lit "lo world")]))
     (trace_of (run two_chunks (upload_document (Some hello_world)) 0%nat)) /\
  In (Upserted [ {| id := lit "doc-1700000000000-0";
                    values := embed (lit "Hello");
                    metadata := {| md_pageContent := lit "Hello" |} |};
                 {| id := lit "doc-1700000000000-1";
                    values := embed (lit "lo world");
                    metadata := {| md_pageContent := lit "lo world" |} |} ] (Ok tt))
     (trace_of (run two_chunks (upload_document (Some hello_world)) 0%nat)) /\
  embed (lit "Hello") <> embed (lit "lo world") /\
  (List.map record_text
     [ {| id := lit "doc-1700000000000-0";
          values := embed (lit "Hello");
          metadata := {| md_pageContent := lit "Hello" |} |};
       {| id := lit "doc-1700000000000-1";
          values := embed (lit "lo world");
          metadata := {| md_pageContent := lit "lo world" |} |} ]
   = [lit "Hello"; lit "lo world"]
   /\ (forall i e,
         [embed (lit "Hello"); embed (lit "lo world")] !! i = Some e ->
         values <$> [ {| id := lit "doc-1700000000000-0";
                         values := embed (lit "Hello");
                         metadata := {| md_pageContent := lit "Hello" |} |};
                      {| id := lit "doc-1700000000000-1";
                         values := embed (lit "lo world");
                         metadata := {| md_pageContent := lit "lo world" |} |} ] !! i = Some e)
   /\ (length [embed (lit "Hello"); embed (lit "lo world")]
         = length [lit "Hello"; lit "lo world"] ->
       List.map values
         [ {| id := lit "doc-1700000000000-0";
              values := embed (lit "Hello");
              metadata := {| md_pageContent := lit "Hello" |} |};
           {| id := lit "doc-1700000000000-1";
              values := embed (lit "lo world");
              metadata := {| md_pageContent := lit "lo world" |} |} ]
       = [embed (lit "Hello"); embed (lit "lo world")])).
Proof.
  assert (In (EmbeddedDocuments [lit "Hello"; lit "lo world"]
                (Ok [embed (lit "Hello"); embed (lit "lo world")]))
            (trace_of (run two_chunks (upload_document (Some hello_world)) 0%nat)))
    as Hembedded by (vm_compute; tauto).
  assert (In (Upserted [ {| id := lit "doc-1700000000000-0";
                            values := embed (lit "Hello");
                            metadata := {| md_pageContent := lit "Hello" |} |};
                         {| id := lit "doc-1700000000000-1";
                            values := embed (lit "lo world");
                            metadata := {| md_pageContent := lit "lo world" |} |} ] (Ok tt))
            (trace_of (run two_chunks (upload_document (Some hello_world)) 0%nat)))
    as Hupserted by (vm_compute; tauto).
  split; [exact Hembedded|]. split; [exact Hupserted|].
  split; [vm_compute; discriminate|].
  exact (embeddings_matched_by_position hello_world nat two_chunks 0%nat _ _ _ _
           Hembedded Hupserted).
Defined.

(** Whatever the collaborators do, an extracted text that is empty after
    clean-up reaches the splitter: no error is raised before chunking. *)
Lemma empty_text_reaches_splitter (buffer : list Byte.byte) :
  forall W (env : environment W) (w : W) data text,
    In (Extracted buffer (Ok data)) (trace_of (run env (upload_document (Some buffer)) w)) ->
    extracted_text data = Ok text ->
    normalize text = [] ->
    exists r, In (Split 1000 200 [[]] r) (trace_of (run env (upload_document (Some buffer)) w)).
Proof.
  intros W env w data text Hin Htext Hempty.
  destruct (run_upload_document env buffer w) as [Ht _].
  rewrite Ht in Hin |- *. clear Ht.
  destruct (upload_pipeline_run env buffer w)
    as [e'|data' e' Htext'|data' text' e' Htext'|data' text' docs clocks e' Htext' Hlen
       |data' text' docs clocks embeddings e' Htext' Hlen Hassign
       |data' text' docs clocks embeddings records' r' Htext' Hlen Hassign].
  - by destruct Hin as [?|[]].
  - destruct Hin as [Heq|[]]. simplify_eq. congruence.
  - destruct Hin as [Heq|[?|[]]]; [|done]. simplify_eq.
    assert (text' = text) as -> by congruence.
    rewrite Hempty. eexists. right. by left.
  - assert (data' = data) as ->.
    { apply in_app_iff in Hin as [[Heq|[?|Hin]]|[?|[]]]; simplify_eq; [done|].
      apply in_map_iff in Hin as (now & ? & _). done. }
    assert (text' = text) as -> by congruence.
    unfold ingestion_prefix. rewrite Hempty. eexists. right. by left.
  - assert (data' = data) as ->.
    { apply in_app_iff in Hin as [[Heq|[?|Hin]]|[?|[]]]; simplify_eq; [done|].
      apply in_map_iff in Hin as (now & ? & _). done. }
    assert (text' = text) as -> by congruence.
    unfold ingestion_prefix. rewrite Hempty. eexists. right. by left.
  - assert (data' = data) as ->.
    { apply in_app_iff in Hin as [[Heq|[?|Hin]]|[?|[?|[]]]]; simplify_eq; [done|].
      apply in_map_iff in Hin as (now & ? & _). done. }
    assert (text' = text) as -> by congruence.
    unfold ingestion_prefix. rewrite Hempty. eexists. right. by left.
Qed.

(** C3 (the code at the failing input): when the extracted text is empty
    after clean-up, the handler raises no error of its own.  Whatever the
    collaborators do, it hands the empty text to the splitter; when the
    splitter returns no chunk it calls the batch embedding with no text; and
    when that returns no embedding it sends the empty batch to the index and
    answers as the index decides: success if the index accepts the batch, 500
    with the message of the index if it refuses. *)
Theorem empty_text_not_rejected (buffer : list Byte.byte) :
  forall W (env : environment W) (w : W) data text,
    In (Extracted buffer (Ok data)) (trace_of (run env (upload_document (Some buffer)) w)) ->
    extracted_text data = Ok text ->
    normalize text = [] ->
    exists r,
      In (Split 1000 200 [[]] r) (trace_of (run env (upload_document (Some buffer)) w))
      /\ (r = Ok [] ->
          exists r2,
            In (EmbeddedDocuments [] r2) (trace_of (run env (upload_document (Some buffer)) w))
            /\ (r2 = Ok [] ->
                exists r3,
                  trace_of (run env (upload_document (Some buffer)) w) =
                    [ Extracted buffer (Ok data); Split 1000 200 [[]] (Ok []);
                      EmbeddedDocuments [] (Ok []); Upserted [] r3 ]
                  /\ outcome_of (run env (upload_document (Some buffer)) w) =
                       Returned
                         match r3 with
                         | Ok _ =>
                             {| status := 200;
                                payload :=
                                  Json [(lit "message",
                                         lit "Document processed and indexed successfully.")] |}
                         | Thrown e =>
                             {| status := 500;
                                payload :=
                                  Json [(lit "error",
                                         lit "Error processing document: " ++ e)] |}
                         end)).
Proof.
  intros W env w data text Hin Htext Hempty.
  destruct (run_upload_document env buffer w) as [Ht Ho].
  rewrite Ht in Hin |- *. rewrite Ho. clear Ht Ho.
  destruct (upload_pipeline_run env buffer w)
    as [e'|data' e' Htext'|data' text' e' Htext'|data' text' docs clocks e' Htext' Hlen
       |data' text' docs clocks embeddings e' Htext' Hlen Hassign
       |data' text' docs clocks embeddings records' r' Htext' Hlen Hassign].
  - by destruct Hin as [?|[]].
  - destruct Hin as [Heq|[]]. simplify_eq. congruence.
  - destruct Hin as [Heq|[?|[]]]; [|done]. simplify_eq.
    assert (text' = text) as -> by congruence. rewrite Hempty.
    exists (Thrown e'). split; [right; by left|done].
  - assert (data' = data) as ->.
    { apply in_app_iff in Hin as [[Heq|[?|Hin]]|[?|[]]]; simplify_eq; [done|].
      apply in_map_iff in Hin as (now & ? & _). done. }
    assert (text' = text) as -> by congruence.
    unfold ingestion_prefix. rewrite Hempty.
    exists (Ok docs). split; [right; by left|]. intros [= ->].
    exists (Thrown e'). split; [|done].
    destruct clocks; [|done]. simpl. tauto.
  - assert (data' = data) as ->.
    { apply in_app_iff in Hin as [[Heq|[?|Hin]]|[?|[]]]; simplify_eq; [done|].
      apply in_map_iff in Hin as (now & ? & _). done. }
    assert (text' = text) as -> by congruence.
    unfold ingestion_prefix. rewrite Hempty.
    exists (Ok docs). split; [right; by left|]. intros [= ->].
    exists (Ok embeddings). split; [destruct clocks; [|done]; simpl; tauto|].
    intros [= ->]. destruct clocks; done.
  - assert (data' = data) as ->.
    { apply in_app_iff in Hin as [[Heq|[?|Hin]]|[?|[?|[]]]]; simplify_eq; [done|].
      apply in_map_iff in Hin as (now & ? & _). done. }
    assert (text' = text) as -> by congruence.
    unfold ingestion_prefix. rewrite Hempty.
    exists (Ok docs). split; [right; by left|]. intros [= ->].
    destruct clocks; [|done].
    exists (Ok embeddings). split; [simpl; tauto|]. intros [= ->].
    simpl in Hassign. injection Hassign as <-.
    exists r'. split; [done|]. by destruct r'.
Qed.

Lemma empty_text_not_rejected_witness :
  In (Extracted [Byte.x20] (Ok {| pages := Some [ {| content := [ {| str := [SPACE] |} ] |} ] |}))
     (trace_of (run strict_index (upload_document (Some [Byte.x20])) 0%nat)) /\
  extracted_text {| pages := Some [ {| content := [ {| str := [SPACE] |} ] |} ] |} = Ok [SPACE] /\
  normalize [SPACE] = [] /\
  trace_of (run strict_index (upload_document (Some [Byte.x20])) 0%nat) =
    [ Extracted [Byte.x20] (Ok {| pages := Some [ {| content := [ {| str := [SPACE] |} ] |} ] |});
      Split 1000 200 [[]] (Ok []);
      EmbeddedDocuments [] (Ok []);
      Upserted [] (Thrown (lit "Must pass in at least 1 record to upsert.")) ] /\
  outcome_of (run strict_index (upload_document (Some [Byte.x20])) 0%nat) =
    Returned {| status := 500;
                payload := Json [(lit "error",
                                  lit "Error processing document: "
                                  ++ lit "Must pass in at least 1 record to upsert.")] |} /\
  exists r,
    In (Split 1000 200 [[]] r)
       (trace_of (run strict_index (upload_document (Some [Byte.x20])) 0%nat))
    /\ (r = Ok [] ->
        exists r2,
          In (EmbeddedDocuments [] r2)
             (trace_of (run strict_index (upload_document (Some [Byte.x20])) 0%nat))
          /\ (r2 = Ok [] ->
              exists r3,
                trace_of (run strict_index (upload_document (Some [Byte.x20])) 0%nat) =
                  [ Extracted [Byte.x20]
                      (Ok {| pages := Some [ {| content := [ {| str := [SPACE] |} ] |} ] |});
                    Split 1000 200 [[]] (Ok []);
                    EmbeddedDocuments [] (Ok []); Upserted [] r3 ]
                /\ outcome_of (run strict_index (upload_document (Some [Byte.x20])) 0%nat) =
                     Returned
                       match r3 with
                       | Ok _ =>
                           {| status := 200;
                              payload :=
                                Json [(lit "message",
                                       lit "Document processed and indexed successfully.")] |}
                       | Thrown e =>
                           {| status := 500;
                              payload :=
                                Json [(lit "error",
                                       lit "Error processing document: " ++ e)] |}
                       end)).
Proof.
  assert (In (Extracted [Byte.x20]
                (Ok {| pages := Some [ {| content := [ {| str := [SPACE] |} ] |} ] |}))
            (trace_of (run strict_index (upload_document (Some [Byte.x20])) 0%nat)))
    as Hin by (vm_compute; tauto).
  split; [exact Hin|]. split; [reflexivity|]. split; [reflexivity|].
  split; [vm_compute; reflexivity|]. split; [vm_compute; reflexivity|].
  exact (empty_text_not_rejected [Byte.x20] nat strict_index 0%nat _ [SPACE] Hin
           eq_refl eq_refl).
Defined.

(** C4 (the code at the failing input): two ingestions whose chunks are
    stamped within the same millisecond write the same identifier, so the
    second upsert overwrites the entry of the first. *)
Theorem same_millisecond_ids_collide :
  upserted_ids
    (trace_of (run (deployment reindexed) (upload_document (Some [Byte.x41])) 0%nat))
    = [lit "doc-1700000000000-0"] /\
  upserted_ids
    (trace_of (run (deployment reindexed) (upload_document (Some [Byte.x42]))
                 (state_of (run (deployment reindexed) (upload_document (Some [Byte.x41])) 0%nat))))
    = [lit "doc-1700000000000-0"] /\
  ~ NoDup
      (upserted_ids
         (trace_of (run (deployment reindexed) (upload_document (Some [Byte.x41])) 0%nat)
          ++ trace_of (run (deployment reindexed) (upload_document (Some [Byte.x42]))
                         (state_of (run (deployment reindexed)
                                      (upload_document (Some [Byte.x41])) 0%nat))))).
Proof.
  split; [vm_compute; reflexivity|]. split; [vm_compute; reflexivity|].
  intros Hnodup. vm_compute in Hnodup.
  apply NoDup_cons_1_1 in Hnodup. apply Hnodup. by left.
Qed.

(** ** The text chunker of the specification *)

Section Windows.

Import SpecChunker.

Variables maxSize overlap : nat.
Hypothesis overlap_lt_maxSize : overlap < maxSize.

Lemma windows_spec fuel : forall text,
  1 <= length text <= fuel ->
  exists first rest,
    windows fuel maxSize overlap text = first :: rest
    /\ length first = Nat.min maxSize (length text)
    /\ Forall (fun c => length c <= maxSize) (first :: rest)
    /\ reassemble overlap (first :: rest) = text.
Proof using overlap_lt_maxSize.
  induction fuel as [|fuel' IH]; intros text Hlen; [lia|].
  simpl. destruct (Nat.leb_spec (length text) maxSize) as [Hshort|Hlong].
  - exists text, []. repeat split.
    + lia.
    + by repeat constructor.
    + simpl. by rewrite app_nil_r.
  - destruct (IH (drop (maxSize - overlap) text)) as (first & rest & -> & Hfirst & Hall & Hre).
    { rewrite length_drop. lia. }
    rewrite length_drop in Hfirst.
    exists (take maxSize text), (first :: rest). repeat split.
    + rewrite length_take. lia.
    + constructor; [rewrite length_take; lia|done].
    + simpl in Hre |- *.
      rewrite <- (drop_app_le first _ overlap) by lia.
      rewrite Hre, drop_drop.
      replace (maxSize - overlap + overlap) with maxSize by lia.
      apply take_drop.
Qed.

Lemma chunk_spec text :
  match chunk text maxSize overlap with
  | inr chunks =>
      chunks <> []
      /\ Forall (fun c => length c <= maxSize) chunks
      /\ reassemble overlap chunks = normalize text
  | inl NoContentExtracted => normalize text = []
  end.
Proof using overlap_lt_maxSize.
  unfold chunk. destruct (normalize text) as [|c cleaned] eqn:Hclean; [done|].
  destruct (windows_spec (length (c :: cleaned)) (c :: cleaned)) as (first & rest & -> & _ & Hall & Hre).
  { simpl. lia. }
  done.
Qed.

End Windows.

Example chunk_1200 :
  SpecChunker.chunk (List.repeat 65%N 1200) 1000 200
  = inr [List.repeat 65%N 1000; List.repeat 65%N 400].
Proof. vm_compute. reflexivity. Qed.

Example chunk_short :
  SpecChunker.chunk (lit " Alpha  beta ") 1000 200 = inr [lit "Alpha beta"].
Proof. vm_compute. reflexivity. Qed.

Example chunk_blank :
  SpecChunker.chunk [SPACE; LF; SPACE] 1000 200 = inl SpecChunker.NoContentExtracted.
Proof. reflexivity. Qed.

(** C5: with [maxSize = 1000] and [overlap = 200], chunking a text gives
    chunks of at most 1000 code units each, and the first chunk followed by
    the other chunks without their first 200 code units is the cleaned-up
    text; the only failure is [NoContentExtracted], for a text that is empty
    after clean-up.  This holds for every input text, so for every non-empty
    one. *)
Theorem chunks_bounded_and_reassemble (text : jsstring) :
  match SpecChunker.chunk text 1000 200 with
  | inr chunks =>
      chunks <> []
      /\ Forall (fun c => length c <= 1000) chunks
      /\ SpecChunker.reassemble 200 chunks = normalize text
  | inl SpecChunker.NoContentExtracted => normalize text = []
  end.
Proof. apply chunk_spec. lia. Qed.

(** ** Identifiers of upserted entries *)

Lemma lit_inj s1 : forall s2, lit s1 = lit s2 -> s1 = s2.
Proof.
  induction s1 as [|a s1' IH]; intros [|b s2']; try done.
  unfold lit. simpl. intros [= Hab Hrest].
  rewrite <- (ascii_N_embedding a), <- (ascii_N_embedding b), Hab.
  f_equal. by apply IH.
Qed.

Lemma to_int_proper z : Z.to_int z <> Pos Nil /\ Z.to_int z <> Neg Nil.
Proof.
  destruct z as [|p|p]; simpl; split; try done;
    intros [= H]; by apply DecimalPos.Unsigned.to_uint_nonnil in H.
Qed.

Lemma dec_inj z1 z2 : dec z1 = dec z2 -> z1 = z2.
Proof.
  unfold dec. intros H%lit_inj.
  apply DecimalZ.to_int_inj.
  destruct (to_int_proper z1) as [Hp1 Hn1], (to_int_proper z2) as [Hp2 Hn2].
  pose proof (NilZero.isi _ Hp1 Hn1) as H1.
  pose proof (NilZero.isi _ Hp2 Hn2) as H2.
  rewrite H in H1. congruence.
Qed.

Lemma digits_without_minus d : ~ In 45%N (lit (NilEmpty.string_of_uint d)).
Proof.
  induction d as [|d IH|d IH|d IH|d IH|d IH|d IH|d IH|d IH|d IH|d IH];
    unfold lit; simpl; [tauto|..]; intros [H|H]; done.
Qed.

Lemma dec_index_without_minus (index : nat) : ~ In 45%N (dec (Z.of_nat index)).
Proof.
  unfold dec. destruct (Z.of_nat index) as [|p|p] eqn:Hz; [|..|lia].
  - unfold lit. simpl. intros [H|H]; done.
  - simpl. destruct (Pos.to_uint p) eqn:Hp; try apply digits_without_minus.
    by apply DecimalPos.Unsigned.to_uint_nonnil in Hp.
Qed.

Lemma last_split_unique {A} (x : A) l1 : forall l2 r1 r2,
  l1 ++ x :: r1 = l2 ++ x :: r2 -> ~ In x r1 -> ~ In x r2 -> l1 = l2 /\ r1 = r2.
Proof.
  induction l1 as [|a l1' IH]; intros [|b l2'] r1 r2; simpl.
  - by intros [= ->].
  - intros [= <- ->] Hr1 _. destruct Hr1. apply in_app_iff. right. by left.
  - intros [= -> <-] _ Hr2. destruct Hr2. apply in_app_iff. right. by left.
  - intros [= -> Hrest] Hr1 Hr2. destruct (IH _ _ _ Hrest Hr1 Hr2) as [-> ->]. done.
Qed.

(** The identifier determines the clock reading and the index it was built
    from. *)
Lemma upsert_id_inj now1 index1 now2 index2 :
  upsert_id now1 index1 = upsert_id now2 index2 -> now1 = now2 /\ index1 = index2.
Proof.
  unfold upsert_id. intros H. apply app_inv_head in H.
  change (lit "-") with [45%N] in H. change ([45%N] ++ ?l) with (45%N :: l) in H.
  apply last_split_unique in H as [H1 H2]; try apply dec_index_without_minus.
  apply dec_inj in H1, H2. split; [done|lia].
Qed.

Lemma stamp_ids docs : forall index clocks x,
  In x (List.map id (stamp index docs clocks)) ->
  exists now j, x = upsert_id now j /\ index <= j.
Proof.
  induction docs as [|doc docs' IH]; intros index [|now clocks'] x; simpl; try done.
  intros [<-|Hin].
  - exists now, index. split; [done|lia].
  - destruct (IH _ _ _ Hin) as (now' & j & -> & Hle). exists now', j. split; [done|lia].
Qed.

Lemma stamp_ids_distinct docs : forall index clocks,
  NoDup (List.map id (stamp index docs clocks)).
Proof.
  induction docs as [|doc docs' IH]; intros index [|now clocks']; simpl; try constructor.
  - intros Hin%list_elem_of_In.
    destruct (stamp_ids _ _ _ _ Hin) as (now' & j & Heq & Hle).
    apply upsert_id_inj in Heq. lia.
  - apply IH.
Qed.

(** The parts of C4 that hold: an ingestion of N chunks upserts N entries,
    entry [i] carries the text of chunk [i] in its metadata, and the
    identifiers within the batch are pairwise distinct. *)
Lemma upsert_batch_complete (buffer : list Byte.byte) :
  forall W (env : environment W) (w : W) size lap texts docs records r,
    In (Split size lap texts (Ok docs)) (trace_of (run env (upload_document (Some buffer)) w)) ->
    In (Upserted records r) (trace_of (run env (upload_document (Some buffer)) w)) ->
    length records = length docs
    /\ List.map record_text records = List.map pageContent docs
    /\ NoDup (List.map id records).
Proof.
  intros W env w size lap texts docs records r Hsplit Hupserted.
  destruct (upsert_call_shape buffer W env w records r Hupserted)
    as (data & text & docs' & clocks & embeddings & Ht & Hlen & Hle & ->).
  rewrite Ht in Hsplit.
  assert (docs' = docs) as ->.
  { apply in_app_iff in Hsplit as [[?|[?|Hin]]|[?|[?|[]]]]; simplify_eq; [done|].
    apply in_map_iff in Hin as (now & ? & _). done. }
  split; [|split].
  - rewrite with_embeddings_length. by apply stamp_length.
  - rewrite with_embeddings_texts. by apply stamp_texts.
  - rewrite with_embeddings_ids. apply stamp_ids_distinct.
Qed.

(** Across ingestions the identifiers differ as long as the clock readings
    do: two identifiers built from different readings are different. *)
Lemma ids_differ_across_milliseconds now1 index1 now2 index2 :
  now1 <> now2 -> upsert_id now1 index1 <> upsert_id now2 index2.
Proof. intros Hne Heq. apply upsert_id_inj in Heq. tauto. Qed.

(** ** White-space-only texts *)

Lemma collapse_from_blank s : forallb is_ws s = true -> collapse_from true s = [].
Proof.
  induction s as [|c s' IH]; simpl; [done|].
  intros [Hc Hs']%andb_true_iff. rewrite Hc. by apply IH.
Qed.

(** A text made of white space only is empty after clean-up. *)
Lemma normalize_blank s : forallb is_ws s = true -> normalize s = [].
Proof.
  intros Hblank. rewrite normalize_collapse. unfold collapse_ws.
  destruct s as [|c s']; [done|]. simpl in Hblank |- *.
  apply andb_true_iff in Hblank as [Hc Hs']. rewrite Hc, (collapse_from_blank _ Hs').
  reflexivity.
Qed.

(** ** Sample runs *)

Example extracted_text_two_pages :
  extracted_text
    {| pages := Some [ {| content := [ {| str := lit "Alpha" |}; {| str := lit "beta" |} ] |};
                       {| content := [ {| str := lit "gamma" |} ] |} ] |}
  = Ok (lit "Alpha beta" ++ [LF; LF] ++ lit "gamma").
Proof. reflexivity. Qed.

Example extracted_text_no_pages :
  extracted_text {| pages := None |} = Thrown (lit "No text found in PDF or PDF parsing failed.")
  /\ extracted_text {| pages := Some [] |}
     = Thrown (lit "No text found in PDF or PDF parsing failed.").
Proof. split; reflexivity. Qed.

Example relevant_docs_missing_metadata :
  relevant_docs [ stored (lit "A");
                  {| match_id := lit "x"; match_score := 0.25%float; match_metadata := None |} ]
  = Thrown (lit "Cannot read properties of undefined (reading 'pageContent')").
Proof. reflexivity. Qed.

Example assign_too_many_embeddings :
  assign_embeddings 0 [embed (lit "a"); embed (lit "bc")] (stamp 0 [ {| pageContent := lit "a" |} ] [7%Z])
  = Thrown (lit "Cannot set properties of undefined (setting 'values')").
Proof. reflexivity. Qed.

Example assign_too_few_embeddings :
  List.map values
    <$> match assign_embeddings 0 [embed (lit "a")]
                (stamp 0 [ {| pageContent := lit "a" |}; {| pageContent := lit "bc" |} ] [7%Z; 8%Z])
        with Ok records => Some records | Thrown _ => None end
  = Some [embed (lit "a"); []].
Proof. reflexivity. Qed.

Example upload_sample :
  run (deployment reindexed) (upload_document (Some [Byte.x48; Byte.x69])) 0%nat =
    ( [ Extracted [Byte.x48; Byte.x69]
          (Ok {| pages := Some [ {| content := [ {| str := lit "Hi" |} ] |} ] |});
        Split 1000 200 [lit "Hi"] (Ok [ {| pageContent := lit "Hi" |} ]);
        ClockRead 1700000000000;
        EmbeddedDocuments [lit "Hi"] (Ok [embed (lit "Hi")]);
        Upserted [ {| id := lit "doc-1700000000000-0";
                      values := embed (lit "Hi");
                      metadata := {| md_pageContent := lit "Hi" |} |} ] (Ok tt) ],
      Returned {| status := 200;
                  payload := Json [(lit "message",
                                    lit "Document processed and indexed successfully.")] |},
      0%nat ).
Proof. vm_compute. reflexivity. Qed.

Example ask_offline :
  run offline (ask_question (asking (lit "Why?"))) tt =
    ( [ EmbeddedQuery (lit "Why?") (Thrown (lit "fetch failed")) ],
      Returned {| status := 500;
                  payload := Json [(lit "error", lit "Error answering question: fetch failed")] |},
      tt ).
Proof. reflexivity. Qed.

Example root_sample :
  run offline (handle GetRoot) tt =
    ( [], Returned {| status := 200;
                      payload := Json [(lit "message", lit "Backend running successfully!")] |}, tt ).
Proof. reflexivity. Qed.

(** * Further properties of the code *)

(** ** Text clean-up, lines 71-74 *)

Lemma collapse_from_content s : forall b, content_of (collapse_from b s) = content_of s.
Proof.
  induction s as [|c s' IH]; intros b; simpl; [done|].
  destruct (is_ws c) eqn:Hc; simpl.
  - destruct b; simpl; by rewrite IH.
  - by rewrite Hc, IH.
Qed.

Lemma trim_start_content s : content_of (trim_start s) = content_of s.
Proof.
  induction s as [|c s' IH]; simpl; [done|].
  destruct (is_ws c) eqn:Hc; simpl; [done|]. by rewrite Hc.
Qed.

Lemma trim_end_content s : content_of (trim_end s) = content_of s.
Proof.
  induction s as [|c s' IH]; simpl; [done|].
  destruct (trim_end s') as [|d r] eqn:Hr.
  - simpl in IH. rewrite <- IH. destruct (is_ws c) eqn:Hc; simpl; [done|]. by rewrite Hc.
  - remember (d :: r) as t. simpl. by rewrite IH.
Qed.

(** X1: the clean-up only touches white space: the code units that are not
    white space are the same, in the same order, before and after. *)
Theorem normalize_keeps_content (s : jsstring) :
  content_of (normalize s) = content_of s.
Proof.
  rewrite normalize_collapse. unfold trim, collapse_ws.
  by rewrite trim_end_content, trim_start_content, collapse_from_content.
Qed.

Lemma spaced_only_spaces s : forall b,
  spaced b s = true -> Forall (fun c => is_ws c = true -> c = SPACE) s.
Proof.
  induction s as [|c s' IH]; intros b H; [constructor|].
  pose proof (spaced_tail _ _ _ H) as Hs'. constructor; [|by eapply IH].
  intros Hc. simpl in H. rewrite Hc in H.
  apply andb_true_iff in H as [H _]. apply andb_true_iff in H as [H _].
  by apply N.eqb_eq in H.
Qed.

Lemma spaced_no_adjacent l1 : forall prev a b l2,
  spaced prev (l1 ++ a :: b :: l2) = true -> is_ws a = true -> is_ws b = false.
Proof.
  induction l1 as [|c l1' IH]; intros prev a b l2 H Ha.
  - apply spaced_tail in H. rewrite Ha in H. simpl in H.
    destruct (is_ws b); [|done]. by rewrite andb_false_r in H.
  - apply spaced_tail in H. by eapply IH.
Qed.

Lemma trim_end_last s : forall l c, trim_end s = l ++ [c] -> is_ws c = false.
Proof.
  induction s as [|a s' IH]; intros l c; simpl.
  - by destruct l.
  - destruct (trim_end s') as [|d r] eqn:Hr.
    + destruct (is_ws a) eqn:Ha; [by destruct l|].
      destruct l as [|? [|]]; [|done..]. by intros [= <-].
    + destruct l as [|a' l']; [done|]. intros [= <- Hrest]. by eapply IH.
Qed.

(** X2: in a cleaned-up text every white-space code unit is a space, no two
    of them are adjacent, and the text neither starts nor ends with one. *)
Theorem normalize_shape (s : jsstring) :
  Forall (fun c => is_ws c = true -> c = SPACE) (normalize s)
  /\ (forall l1 a b l2, normalize s = l1 ++ a :: b :: l2 -> is_ws a = true -> is_ws b = false)
  /\ (forall c r, normalize s = c :: r -> is_ws c = false)
  /\ (forall l c, normalize s = l ++ [c] -> is_ws c = false).
Proof.
  pose proof (normalize_spaced s) as Hspaced.
  split; [by eapply spaced_only_spaces|].
  split; [intros l1 a b l2 Heq Ha; rewrite Heq in Hspaced; by eapply spaced_no_adjacent|].
  rewrite normalize_collapse. unfold trim. split.
  - intros c r Heq.
    destruct (trim_start_shape (collapse_ws s)) as [Hnil|(c' & r' & Hcons & Hc')].
    + by rewrite Hnil in Heq.
    + rewrite Hcons in Heq. destruct (trim_end_head c' r' Hc') as [r'' Hr''].
      rewrite Hr'' in Heq. by injection Heq as <- _.
  - intros l c. apply trim_end_last.
Qed.

(** X3: the second [replace] of the clean-up (line 73) never changes the
    text: after the first one no line break is left. *)
Theorem second_replace_changes_nothing (s : jsstring) :
  replace_newlines (collapse_ws s) = collapse_ws s.
Proof.
  unfold collapse_ws. eapply replace_newlines_spaced, collapse_from_spaced.
Qed.

Lemma collapse_from_length s : forall b, length (collapse_from b s) <= length s.
Proof.
  induction s as [|c s' IH]; intros b; simpl; [done|].
  destruct (is_ws c); [destruct b|]; simpl.
  - specialize (IH true). lia.
  - specialize (IH true). lia.
  - specialize (IH false). lia.
Qed.

Lemma trim_start_length s : length (trim_start s) <= length s.
Proof.
  induction s as [|c s' IH]; simpl; [done|]. destruct (is_ws c); simpl; lia.
Qed.

Lemma trim_end_length s : length (trim_end s) <= length s.
Proof.
  induction s as [|c s' IH]; simpl; [done|].
  destruct (trim_end s') as [|d r]; [destruct (is_ws c)|]; simpl in *; lia.
Qed.

(** X4: the clean-up never makes a text longer. *)
Theorem normalize_never_longer (s : jsstring) : length (normalize s) <= length s.
Proof.
  rewrite normalize_collapse. unfold trim, collapse_ws.
  pose proof (trim_end_length (trim_start (collapse_from false s))).
  pose proof (trim_start_length (collapse_from false s)).
  pose proof (collapse_from_length s false). lia.
Qed.

Lemma content_of_nil s : content_of s = [] <-> forallb is_ws s = true.
Proof.
  induction s as [|c s' IH]; simpl; [done|].
  destruct (is_ws c); simpl; [done|]. split; discriminate.
Qed.

(** X5: the cleaned-up text is empty exactly when the text consists of white
    space only (the empty text included). *)
Theorem normalize_empty_iff_blank (s : jsstring) :
  normalize s = [] <-> forallb is_ws s = true.
Proof.
  split.
  - intros Hempty. apply content_of_nil.
    rewrite <- (collapse_from_content s false), <- (trim_start_content (collapse_from false s)),
      <- (trim_end_content (trim_start (collapse_from false s))).
    fold (trim (collapse_from false s)). fold (collapse_ws s).
    by rewrite <- normalize_collapse, Hempty.
  - intros Hblank. rewrite normalize_collapse. unfold collapse_ws.
    destruct s as [|c s']; [done|]. simpl in Hblank |- *.
    apply andb_true_iff in Hblank as [Hc Hs']. rewrite Hc, (collapse_from_blank _ Hs').
    reflexivity.
Qed.

(** ** Identifiers, line 94 *)

(** X6: an identifier determines the clock reading and the chunk index it
    was built from: two identifiers are equal exactly when both agree. *)
Theorem upsert_id_eq_iff (now1 now2 : Z) (index1 index2 : nat) :
  upsert_id now1 index1 = upsert_id now2 index2 <-> now1 = now2 /\ index1 = index2.
Proof.
  split; [apply upsert_id_inj|]. by intros [-> ->].
Qed.

(** ** The upload handler, lines 50-119 *)

Lemma in_ingestion_prefix buffer data text docs clocks ev :
  In ev (ingestion_prefix buffer data text docs clocks) <->
  ev = Extracted buffer (Ok data)
  \/ ev = Split 1000 200 [normalize text] (Ok docs)
  \/ exists now, ev = ClockRead now /\ In now clocks.
Proof.
  unfold ingestion_prefix. simpl. rewrite in_map_iff. split.
  - intros [<-|[<-|(now & <- & Hin)]]; [tauto..|]. right. right. by exists now.
  - intros [->|[->|(now & -> & Hin)]]; [tauto..|]. right. right. by exists now.
Qed.

Lemma clock_readings_app t1 t2 : clock_readings (t1 ++ t2) = clock_readings t1 ++ clock_readings t2.
Proof. unfold clock_readings. by rewrite map_app, concat_app. Qed.

Lemma clock_readings_reads clocks : clock_readings (List.map ClockRead clocks) = clocks.
Proof. induction clocks as [|now clocks' IH]; [done|]. unfold clock_readings in *. simpl. by rewrite IH. Qed.

Lemma stamp_ids_from docs : forall index clocks,
  length clocks = length docs ->
  List.map id (stamp index docs clocks) = ids_from index clocks.
Proof.
  induction docs as [|doc docs' IH]; intros index [|now clocks']; simpl; try done.
  intros [= Hlen]. by rewrite IH.
Qed.

Lemma stamp_values docs : forall index clocks,
  Forall (fun r => values r = []) (stamp index docs clocks).
Proof.
  induction docs as [|doc docs' IH]; intros index [|now clocks']; simpl; constructor; auto.
Qed.

(** X7: in an ingestion that reaches the upsert, the clock was read once for
    every entry, and entry [i] is named ["doc-"], the [i]-th reading, ["-"],
    [i]. *)
Theorem upserted_ids_follow_clock (buffer : list Byte.byte) :
  forall W (env : environment W) (w : W) records r,
    In (Upserted records r) (trace_of (run env (upload_document (Some buffer)) w)) ->
    List.map id records
      = ids_from 0 (clock_readings (trace_of (run env (upload_document (Some buffer)) w)))
    /\ length (clock_readings (trace_of (run env (upload_document (Some buffer)) w)))
       = length records.
Proof.
  intros W env w records r Hin.
  destruct (upsert_call_shape buffer W env w records r Hin)
    as (data & text & docs & clocks & embeddings & -> & Hlen & Hle & ->).
  unfold ingestion_prefix. rewrite !clock_readings_app, clock_readings_reads.
  change (clock_readings [_; _]) with (@nil Z). change (clock_readings [_; _]) with (@nil Z).
  rewrite app_nil_r. simpl.
  rewrite with_embeddings_ids, with_embeddings_length.
  rewrite (stamp_ids_from _ _ _ Hlen), (stamp_length _ _ _ Hlen). done.
Qed.

Lemma upserted_ids_follow_clock_witness :
  In (Upserted [ {| id := lit "doc-1700000000000-0";
                    values := embed (lit "Hi");
                    metadata := {| md_pageContent := lit "Hi" |} |} ] (Ok tt))
     (trace_of (run (deployment reindexed) (upload_document (Some [Byte.x48; Byte.x69])) 0%nat)) /\
  List.map id [ {| id := lit "doc-1700000000000-0";
                   values := embed (lit "Hi");
                   metadata := {| md_pageContent := lit "Hi" |} |} ]
    = ids_from 0
        (clock_readings
           (trace_of (run (deployment reindexed)
                        (upload_document (Some [Byte.x48; Byte.x69])) 0%nat))).
Proof.
  assert (In (Upserted [ {| id := lit "doc-1700000000000-0";
                            values := embed (lit "Hi");
                            metadata := {| md_pageContent := lit "Hi" |} |} ] (Ok tt))
            (trace_of (run (deployment reindexed)
                         (upload_document (Some [Byte.x48; Byte.x69])) 0%nat)))
    as Hin by (vm_compute; tauto).
  split; [exact Hin|].
  exact (proj1 (upserted_ids_follow_clock [Byte.x48; Byte.x69] nat (deployment reindexed)
                  0%nat _ _ Hin)).
Defined.

Ltac crack_in H :=
  repeat match type of H with
  | In _ (_ ++ _) => apply in_app_iff in H as [H|H]
  | In _ (ingestion_prefix _ _ _ _ _) => apply in_ingestion_prefix in H as [H|[H|(? & H & ?)]]
  | In _ (_ :: _) => destruct H as [H|H]
  | In _ [] => destruct H
  end.

Lemma assign_embeddings_thrown chunkEmbeddings : forall index upsertRequests e,
  assign_embeddings index chunkEmbeddings upsertRequests = Thrown e ->
  e = lit "Cannot set properties of undefined (setting 'values')".
Proof.
  induction chunkEmbeddings as [|embedding rest IH]; intros index reqs e; simpl; [done|].
  destruct (reqs !! index); [apply IH|]. by intros [= <-].
Qed.

Lemma with_embeddings_beyond chunkEmbeddings : forall reqs i,
  length chunkEmbeddings <= i ->
  with_embeddings chunkEmbeddings reqs !! i = reqs !! i.
Proof.
  induction chunkEmbeddings as [|e es IH]; intros [|r rs] [|i]; simpl; try done; try lia.
  intros Hle. apply IH. lia.
Qed.

(** X8: when the embedding provider returns more embeddings than there are
    chunks, the assignment of line 104 throws: nothing is upserted and the
    response is 500 with the message of the [TypeError]. *)
Theorem surplus_embeddings_abort (buffer : list Byte.byte) :
  forall W (env : environment W) (w : W) texts embeddings,
    In (EmbeddedDocuments texts (Ok embeddings))
       (trace_of (run env (upload_document (Some buffer)) w)) ->
    length texts < length embeddings ->
    forallb (fun ev => negb (is_upsert ev))
      (trace_of (run env (upload_document (Some buffer)) w)) = true
    /\ outcome_of (run env (upload_document (Some buffer)) w) =
         Returned {| status := 500;
                     payload := Json [(lit "error",
                                       lit "Error processing document: "
                                       ++ lit "Cannot set properties of undefined (setting 'values')")] |}.
Proof.
  intros W env w texts embeddings Hin Hmore.
  destruct (run_upload_document env buffer w) as [Ht Ho].
  rewrite Ht in Hin |- *. rewrite Ho. clear Ht Ho.
  destruct (upload_pipeline_run env buffer w)
    as [e'|data e' Htext|data text e' Htext|data text docs clocks e' Htext Hlen
       |data text docs clocks embeddings' e' Htext Hlen Hassign
       |data text docs clocks embeddings' records r Htext Hlen Hassign];
    crack_in Hin; simplify_eq.
  - apply assign_embeddings_thrown in Hassign as ->. split; [|done].
    apply forallb_forall. intros ev Hev. crack_in Hev; by simplify_eq.
  - apply assign_embeddings_spec in Hassign as [_ Hle].
    rewrite (stamp_length _ _ _ Hlen) in Hle. rewrite length_map in Hmore.
    destruct Hle as [->|Hle]; simpl in *; lia.
Qed.

Lemma surplus_embeddings_abort_witness :
  In (EmbeddedDocuments [lit "Hi"] (Ok [embed []; embed []; embed []]))
     (trace_of (run three_embeddings (upload_document (Some [Byte.x48; Byte.x69])) 0%nat)) /\
  length [lit "Hi"] < length [embed []; embed []; embed []] /\
  forallb (fun ev => negb (is_upsert ev))
    (trace_of (run three_embeddings (upload_document (Some [Byte.x48; Byte.x69])) 0%nat)) = true /\
  outcome_of (run three_embeddings (upload_document (Some [Byte.x48; Byte.x69])) 0%nat) =
    Returned {| status := 500;
                payload := Json [(lit "error",
                                  lit "Error processing document: "
                                  ++ lit "Cannot set properties of undefined (setting 'values')")] |}.
Proof.
  assert (In (EmbeddedDocuments [lit "Hi"] (Ok [embed []; embed []; embed []]))
            (trace_of (run three_embeddings (upload_document (Some [Byte.x48; Byte.x69])) 0%nat)))
    as Hin by (vm_compute; tauto).
  assert (length [lit "Hi"] < length [embed []; embed []; embed []]) as Hmore by (simpl; lia).
  split; [exact Hin|]. split; [exact Hmore|].
  exact (surplus_embeddings_abort [Byte.x48; Byte.x69] nat three_embeddings 0%nat _ _ Hin Hmore).
Defined.

Lemma assign_embeddings_fits chunkEmbeddings : forall index upsertRequests,
  index + length chunkEmbeddings <= length upsertRequests ->
  exists records, assign_embeddings index chunkEmbeddings upsertRequests = Ok records.
Proof.
  induction chunkEmbeddings as [|embedding rest IH]; intros index reqs Hfits; simpl.
  - by exists reqs.
  - simpl in Hfits. destruct (lookup_lt_is_Some_2 reqs index) as [r ->]; [lia|].
    apply IH. rewrite length_insert. lia.
Qed.

(** X9: when the embedding provider returns no more embeddings than there
    are chunks, the upsert is made, with one entry per chunk; when it returns
    fewer, every entry past the last embedding carries the empty vector it
    was created with. *)
Theorem missing_embeddings_leave_empty_values (buffer : list Byte.byte) :
  forall W (env : environment W) (w : W) texts embeddings,
    In (EmbeddedDocuments texts (Ok embeddings))
       (trace_of (run env (upload_document (Some buffer)) w)) ->
    length embeddings <= length texts ->
    exists records r,
      In (Upserted records r) (trace_of (run env (upload_document (Some buffer)) w))
      /\ length records = length texts
      /\ forall i entry,
           records !! i = Some entry -> length embeddings <= i -> values entry = [].
Proof.
  intros W env w texts embeddings Hin Hfew.
  destruct (run_upload_document env buffer w) as [Ht _].
  rewrite Ht in Hin |- *. clear Ht.
  destruct (upload_pipeline_run env buffer w)
    as [e'|data e' Htext|data text e' Htext|data text docs clocks e' Htext Hlen
       |data text docs clocks embeddings' e' Htext Hlen Hassign
       |data text docs clocks embeddings' records r Htext Hlen Hassign];
    crack_in Hin; simplify_eq; rewrite length_map in Hfew.
  - destruct (assign_embeddings_fits embeddings 0 (stamp 0 docs clocks)) as [records Hok].
    { rewrite (stamp_length _ _ _ Hlen). simpl. lia. }
    congruence.
  - exists records, r. split; [apply in_app_iff; right; right; by left|].
    apply assign_embeddings_spec in Hassign as [-> _].
    rewrite take_0, drop_0. simpl.
    split; [by rewrite with_embeddings_length, length_map, (stamp_length _ _ _ Hlen)|].
    intros i entry Hentry Hbeyond.
    rewrite with_embeddings_beyond in Hentry by done.
    pose proof (stamp_values docs 0 clocks) as Hall.
    rewrite Forall_forall in Hall. apply Hall. eapply list_elem_of_lookup_2, Hentry.
Qed.

Lemma missing_embeddings_leave_empty_values_witness :
  In (EmbeddedDocuments [lit "Hello"; lit "lo world"] (Ok [embed (lit "Hello")]))
     (trace_of (run one_embedding (upload_document (Some hello_world)) 0%nat)) /\
  length [embed (lit "Hello")] <= length [lit "Hello"; lit "lo world"] /\
  trace_of (run one_embedding (upload_document (Some hello_world)) 0%nat) =
    [ Extracted hello_world
        (Ok {| pages := Some [ {| content := [ {| str := lit "Hello world" |} ] |} ] |});
      Split 1000 200 [lit "Hello world"]
        (Ok [ {| pageContent := lit "Hello" |}; {| pageContent := lit "lo world" |} ]);
      ClockRead 1700000000000; ClockRead 1700000000000;
      EmbeddedDocuments [lit "Hello"; lit "lo world"] (Ok [embed (lit "Hello")]);
      Upserted [ {| id := lit "doc-1700000000000-0";
                    values := embed (lit "Hello");
                    metadata := {| md_pageContent := lit "Hello" |} |};
                 {| id := lit "doc-1700000000000-1";
                    values := [];
                    metadata := {| md_pageContent := lit "lo world" |} |} ] (Ok tt) ] /\
  exists records r,
    In (Upserted records r)
       (trace_of (run one_embedding (upload_document (Some hello_world)) 0%nat))
    /\ length records = length [lit "Hello"; lit "lo world"]
    /\ forall i entry,
         records !! i = Some entry -> length [embed (lit "Hello")] <= i -> values entry = [].
Proof.
  assert (In (EmbeddedDocuments [lit "Hello"; lit "lo world"] (Ok [embed (lit "Hello")]))
            (trace_of (run one_embedding (upload_document (Some hello_world)) 0%nat)))
    as Hin by (vm_compute; tauto).
  assert (length [embed (lit "Hello")] <= length [lit "Hello"; lit "lo world"])
    as Hfew by (simpl; lia).
  split; [exact Hin|]. split; [exact Hfew|]. split; [vm_compute; reflexivity|].
  exact (missing_embeddings_leave_empty_values hello_world nat one_embedding 0%nat _ _ Hin Hfew).
Defined.

(** X10: the response of an ingestion that reaches the upsert follows the
    upsert: 200 with the success message when the index accepted the batch,
    500 with the message of the index when it rejected it. *)
Theorem response_follows_upsert (buffer : list Byte.byte) :
  forall W (env : environment W) (w : W) records r,
    In (Upserted records r) (trace_of (run env (upload_document (Some buffer)) w)) ->
    outcome_of (run env (upload_document (Some buffer)) w) =
      Returned
        match r with
        | Ok _ =>
            {| status := 200;
               payload := Json [(lit "message",
                                 lit "Document processed and indexed successfully.")] |}
        | Thrown e =>
            {| status := 500;
               payload := Json [(lit "error", lit "Error processing document: " ++ e)] |}
        end.
Proof.
  intros W env w records r Hin.
  destruct (run_upload_document env buffer w) as [Ht Ho].
  rewrite Ht in Hin. rewrite Ho. clear Ht Ho.
  destruct (upload_pipeline_run env buffer w)
    as [e'|data e' Htext|data text e' Htext|data text docs clocks e' Htext Hlen
       |data text docs clocks embeddings' e' Htext Hlen Hassign
       |data text docs clocks embeddings' records' r' Htext Hlen Hassign];
    crack_in Hin; simplify_eq.
  by destruct r.
Qed.

Lemma response_follows_upsert_witness :
  In (Upserted [] (Ok tt))
     (trace_of (run (deployment reindexed) (upload_document (Some [Byte.x20])) 0%nat)) /\
  outcome_of (run (deployment reindexed) (upload_document (Some [Byte.x20])) 0%nat) =
    Returned {| status := 200;
                payload := Json [(lit "message",
                                  lit "Document processed and indexed successfully.")] |}.
Proof.
  assert (In (Upserted [] (Ok tt))
            (trace_of (run (deployment reindexed) (upload_document (Some [Byte.x20])) 0%nat)))
    as Hin by (vm_compute; tauto).
  split; [exact Hin|].
  exact (response_follows_upsert [Byte.x20] nat (deployment reindexed) 0%nat _ _ Hin).
Defined.

(** X11: a request to the upload route writes to the index at most once, in
    one batch, and nothing is called after that write. *)
Theorem at_most_one_upsert (file : option (list Byte.byte)) :
  forall W (env : environment W) (w : W),
    List.filter is_upsert (trace_of (run env (upload_document file) w)) = []
    \/ exists before records r,
         trace_of (run env (upload_document file) w) = before ++ [Upserted records r]
         /\ List.filter is_upsert before = [].
Proof.
  intros W env w. destruct file as [buffer|]; [|by left].
  destruct (run_upload_document env buffer w) as [-> _].
  assert (forall data text docs clocks,
            List.filter is_upsert (ingestion_prefix buffer data text docs clocks) = [])
    as Hprefix.
  { intros data text docs clocks. unfold ingestion_prefix. simpl.
    induction clocks as [|now clocks' IH]; [done|]. simpl. apply IH. }
  destruct (upload_pipeline_run env buffer w)
    as [e'|data e' Htext|data text e' Htext|data text docs clocks e' Htext Hlen
       |data text docs clocks embeddings' e' Htext Hlen Hassign
       |data text docs clocks embeddings' records' r' Htext Hlen Hassign];
    try (left; rewrite ?List.filter_app, ?Hprefix; reflexivity).
  right. exists (ingestion_prefix buffer data text docs clocks
                 ++ [EmbeddedDocuments (List.map pageContent docs) (Ok embeddings')]),
                records', r'.
  split; [by rewrite <- app_assoc|]. by rewrite List.filter_app, Hprefix.
Qed.

(** X12: when the extractor yields no pages ([data.pages] missing or empty),
    the handler stops there: no other collaborator is called, and the
    response is 500 with "No text found in PDF or PDF parsing failed.". *)
Theorem no_pages_stops_ingestion (buffer : list Byte.byte) :
  forall W (env : environment W) (w : W) buffer' data,
    In (Extracted buffer' (Ok data)) (trace_of (run env (upload_document (Some buffer)) w)) ->
    pages data = None \/ pages data = Some [] ->
    trace_of (run env (upload_document (Some buffer)) w) = [Extracted buffer (Ok data)]
    /\ outcome_of (run env (upload_document (Some buffer)) w) =
         Returned {| status := 500;
                     payload := Json [(lit "error",
                                       lit "Error processing document: "
                                       ++ lit "No text found in PDF or PDF parsing failed.")] |}.
Proof.
  intros W env w buffer' data Hin Hpages.
  assert (extracted_text data = Thrown (lit "No text found in PDF or PDF parsing failed."))
    as Hnone by (unfold extracted_text; by destruct Hpages as [->| ->]).
  destruct (run_upload_document env buffer w) as [Ht Ho].
  rewrite Ht in Hin |- *. rewrite Ho. clear Ht Ho.
  destruct (upload_pipeline_run env buffer w)
    as [e'|data' e' Htext|data' text e' Htext|data' text docs clocks e' Htext Hlen
       |data' text docs clocks embeddings' e' Htext Hlen Hassign
       |data' text docs clocks embeddings' records' r' Htext Hlen Hassign];
    crack_in Hin; simplify_eq; try congruence.
  rewrite Hnone in Htext. by simplify_eq.
Qed.

Lemma no_pages_stops_ingestion_witness :
  In (Extracted [Byte.x25] (Ok {| pages := Some [] |}))
     (trace_of (run no_pages (upload_document (Some [Byte.x25])) 0%nat)) /\
  (pages {| pages := Some [] |} = None \/ pages {| pages := Some [] |} = Some []) /\
  trace_of (run no_pages (upload_document (Some [Byte.x25])) 0%nat)
    = [Extracted [Byte.x25] (Ok {| pages := Some [] |})] /\
  outcome_of (run no_pages (upload_document (Some [Byte.x25])) 0%nat) =
    Returned {| status := 500;
                payload := Json [(lit "error",
                                  lit "Error processing document: "
                                  ++ lit "No text found in PDF or PDF parsing failed.")] |}.
Proof.
  assert (In (Extracted [Byte.x25] (Ok {| pages := Some [] |}))
            (trace_of (run no_pages (upload_document (Some [Byte.x25])) 0%nat)))
    as Hin by (vm_compute; tauto).
  assert (pages {| pages := Some [] |} = None \/ pages {| pages := Some [] |} = Some [])
    as Hpages by (by right).
  split; [exact Hin|]. split; [exact Hpages|].
  exact (no_pages_stops_ingestion [Byte.x25] nat no_pages 0%nat _ _ Hin Hpages).
Defined.

(** X13: the splitter is only ever given one text, the cleaned-up text of the
    extracted pages, with chunk size 1000 and overlap 200. *)
Theorem splitter_gets_cleaned_text (buffer : list Byte.byte) :
  forall W (env : environment W) (w : W) size lap texts r,
    In (Split size lap texts r) (trace_of (run env (upload_document (Some buffer)) w)) ->
    size = 1000 /\ lap = 200 /\
    exists data text,
      In (Extracted buffer (Ok data)) (trace_of (run env (upload_document (Some buffer)) w))
      /\ extracted_text data = Ok text
      /\ texts = [normalize text].
Proof.
  intros W env w size lap texts r Hin.
  destruct (run_upload_document env buffer w) as [Ht _].
  rewrite Ht in Hin |- *. clear Ht.
  destruct (upload_pipeline_run env buffer w)
    as [e'|data e' Htext|data text e' Htext|data text docs clocks e' Htext Hlen
       |data text docs clocks embeddings' e' Htext Hlen Hassign
       |data text docs clocks embeddings' records' r' Htext Hlen Hassign];
    crack_in Hin; simplify_eq;
    (split; [done|]); (split; [done|]); exists data, text;
    (split; [|done]); unfold ingestion_prefix; simpl; tauto.
Qed.

Lemma splitter_gets_cleaned_text_witness :
  In (Split 1000 200 [lit "Hi"] (Ok [ {| pageContent := lit "Hi" |} ]))
     (trace_of (run (deployment reindexed) (upload_document (Some [Byte.x48; Byte.x69])) 0%nat)) /\
  (1000 = 1000 /\ 200 = 200 /\
   exists data text,
     In (Extracted [Byte.x48; Byte.x69] (Ok data))
        (trace_of (run (deployment reindexed) (upload_document (Some [Byte.x48; Byte.x69])) 0%nat))
     /\ extracted_text data = Ok text
     /\ [lit "Hi"] = [normalize text]).
Proof.
  assert (In (Split 1000 200 [lit "Hi"] (Ok [ {| pageContent := lit "Hi" |} ]))
            (trace_of (run (deployment reindexed)
                         (upload_document (Some [Byte.x48; Byte.x69])) 0%nat)))
    as Hin by (vm_compute; tauto).
  split; [exact Hin|].
  exact (splitter_gets_cleaned_text [Byte.x48; Byte.x69] nat (deployment reindexed) 0%nat
           _ _ _ _ Hin).
Defined.

(** X14: the upload route calls only the collaborators of ingestion: it never
    embeds a query, never searches the index, never asks the retriever or the
    chat model. *)
Theorem upload_calls_only_ingestion (file : option (list Byte.byte)) :
  forall W (env : environment W) (w : W),
    forallb is_ingestion_event (trace_of (run env (upload_document file) w)) = true.
Proof.
  intros W env w. destruct file as [buffer|]; [|done].
  destruct (run_upload_document env buffer w) as [-> _].
  apply forallb_forall. intros ev Hin.
  destruct (upload_pipeline_run env buffer w)
    as [e'|data e' Htext|data text e' Htext|data text docs clocks e' Htext Hlen
       |data text docs clocks embeddings' e' Htext Hlen Hassign
       |data text docs clocks embeddings' records' r' Htext Hlen Hassign];
    crack_in Hin; by simplify_eq.
Qed.

(** ** The question handler, lines 121-245 *)

Ltac ask_cases env q w :=
  destruct (answer_pipeline_run env q w)
    as [e'|v e'|v found' e' Hdocs|v found' Hnone|v found' relevantDocs e' Hdocs Hsome
       |v found' relevantDocs docsFromRetriever r' Hdocs Hsome].

(** X15: the question route never writes: it calls only the query embedding,
    the index search, the retriever and the chat model; no extraction, no
    splitting, no upsert. *)
Theorem ask_calls_only_answering (req_body : option RequestBody) :
  forall W (env : environment W) (w : W),
    forallb is_answering_event (trace_of (run env (ask_question req_body) w)) = true.
Proof.
  intros W env w. destruct req_body as [[[[|c q']|]]|]; [done| |done..].
  destruct (run_ask_question env (c :: q') w) as [-> _]; [done|].
  apply forallb_forall. intros ev Hin.
  ask_cases env (c :: q') w; crack_in Hin; by simplify_eq.
Qed.

Lemma relevant_docs_thrown ms e :
  relevant_docs ms = Thrown e ->
  e = lit "Cannot read properties of undefined (reading 'pageContent')"
  /\ forallb has_metadata ms = false.
Proof.
  induction ms as [|m ms' IH]; simpl; [done|]. unfold has_metadata at 1.
  destruct (match_metadata m); [|by intros [= <-]].
  destruct (relevant_docs ms'); [done|]. intros [= ->]. by apply IH.
Qed.

Lemma relevant_docs_ok ms docs :
  relevant_docs ms = Ok docs ->
  forallb has_metadata ms = true /\ List.map (fun d => Some (pageContent d)) docs = List.map match_text ms.
Proof.
  revert docs. induction ms as [|m ms' IH]; intros docs; simpl; [by intros [= <-]|].
  unfold has_metadata at 1, match_text at 1.
  destruct (match_metadata m); [|done].
  destruct (relevant_docs ms') as [docs'|]; [|done]. intros [= <-].
  destruct (IH docs' eq_refl) as [-> Hmap]. simpl. by rewrite Hmap.
Qed.

(** X16: when the index returns a match that carries no metadata, reading
    its text throws: the request ends with the search, in a 500 response with
    the message of the [TypeError]; neither the retriever nor the chat model
    is called. *)
Theorem match_without_metadata_aborts (req_body : option RequestBody) :
  forall W (env : environment W) (w : W) request found,
    In (Queried request (Ok found)) (trace_of (run env (ask_question req_body) w)) ->
    forallb has_metadata (matches found) = false ->
    (exists before, trace_of (run env (ask_question req_body) w) = before ++ [Queried request (Ok found)])
    /\ outcome_of (run env (ask_question req_body) w) =
         Returned {| status := 500;
                     payload := Json [(lit "error",
                                       lit "Error answering question: "
                                       ++ lit "Cannot read properties of undefined (reading 'pageContent')")] |}.
Proof.
  intros W env w request found Hin Hbare.
  destruct req_body as [[[[|c q']|]]|]; [by destruct Hin| |by destruct Hin..].
  destruct (run_ask_question env (c :: q') w) as [Ht Ho]; [done|].
  rewrite Ht in Hin |- *. rewrite Ho. clear Ht Ho.
  ask_cases env (c :: q') w; crack_in Hin; simplify_eq.
  - apply relevant_docs_thrown in Hdocs as [-> _]. split; [|done].
    by exists [EmbeddedQuery (c :: q') (Ok v)].
  - rewrite Hnone in Hbare. done.
  - apply relevant_docs_ok in Hdocs as [Hall _]. congruence.
  - apply relevant_docs_ok in Hdocs as [Hall _]. congruence.
Qed.

Lemma match_without_metadata_aborts_witness :
  In (Queried (top5 (embed (lit "Why?")))
        (Ok {| matches := [ {| match_id := lit "legacy";
                               match_score := 0.25%float;
                               match_metadata := None |} ] |}))
     (trace_of (run bare_record (ask_question (asking (lit "Why?"))) 0%nat)) /\
  forallb has_metadata [ {| match_id := lit "legacy";
                            match_score := 0.25%float;
                            match_metadata := None |} ] = false /\
  outcome_of (run bare_record (ask_question (asking (lit "Why?"))) 0%nat) =
    Returned {| status := 500;
                payload := Json [(lit "error",
                                  lit "Error answering question: "
                                  ++ lit "Cannot read properties of undefined (reading 'pageContent')")] |}.
Proof.
  assert (In (Queried (top5 (embed (lit "Why?")))
                (Ok {| matches := [ {| match_id := lit "legacy";
                                       match_score := 0.25%float;
                                       match_metadata := None |} ] |}))
            (trace_of (run bare_record (ask_question (asking (lit "Why?"))) 0%nat)))
    as Hin by (vm_compute; tauto).
  split; [exact Hin|]. split; [reflexivity|].
  exact (proj2 (match_without_metadata_aborts (asking (lit "Why?")) nat bare_record 0%nat
                  _ _ Hin eq_refl)).
Defined.

(** X17: the text the chat model returns is the answer of the response,
    unchanged, with status 200. *)
Theorem answer_returned_verbatim (req_body : option RequestBody) :
  forall W (env : environment W) (w : W) prompt answer,
    In (Completed prompt (Ok answer)) (trace_of (run env (ask_question req_body) w)) ->
    outcome_of (run env (ask_question req_body) w) =
      Returned {| status := 200; payload := Json [(lit "answer", answer)] |}.
Proof.
  intros W env w prompt answer Hin.
  destruct req_body as [[[[|c q']|]]|]; [by destruct Hin| |by destruct Hin..].
  destruct (run_ask_question env (c :: q') w) as [Ht Ho]; [done|].
  rewrite Ht in Hin. rewrite Ho. clear Ht Ho.
  ask_cases env (c :: q') w; crack_in Hin; by simplify_eq.
Qed.

Lemma answer_returned_verbatim_witness :
  In (Completed (rendered_prompt (lit "B" ++ [LF; LF] ++ lit "A") (lit "What?")) (Ok (lit "42")))
     (trace_of (run (deployment reindexed) (ask_question (asking (lit "What?"))) 0%nat)) /\
  outcome_of (run (deployment reindexed) (ask_question (asking (lit "What?"))) 0%nat) =
    Returned {| status := 200; payload := Json [(lit "answer", lit "42")] |}.
Proof.
  assert (In (Completed (rendered_prompt (lit "B" ++ [LF; LF] ++ lit "A") (lit "What?"))
                (Ok (lit "42")))
            (trace_of (run (deployment reindexed) (ask_question (asking (lit "What?"))) 0%nat)))
    as Hin by (vm_compute; tauto).
  split; [exact Hin|].
  exact (answer_returned_verbatim (asking (lit "What?")) nat (deployment reindexed) 0%nat
           _ _ Hin).
Defined.

(** X18: when a collaborator of the question route rejects (the query
    embedding, the index search, the retriever or the chat model), the
    request ends with that call, and the response is 500 with
    "Error answering question: " followed by the message of the rejection. *)
Theorem answering_failure_surfaces (req_body : option RequestBody) :
  forall W (env : environment W) (w : W) ev e,
    In ev (trace_of (run env (ask_question req_body) w)) ->
    answering_failure ev = Some e ->
    (exists before, trace_of (run env (ask_question req_body) w) = before ++ [ev])
    /\ outcome_of (run env (ask_question req_body) w) =
         Returned {| status := 500;
                     payload := Json [(lit "error", lit "Error answering question: " ++ e)] |}.
Proof.
  intros W env w ev e Hin Hfail.
  destruct req_body as [[[[|c q']|]]|]; [by destruct Hin| |by destruct Hin..].
  destruct (run_ask_question env (c :: q') w) as [Ht Ho]; [done|].
  rewrite Ht in Hin |- *. rewrite Ho. clear Ht Ho.
  ask_cases env (c :: q') w; crack_in Hin; simplify_eq; simpl in Hfail; simplify_eq.
  - split; [by exists []|done].
  - split; [by exists [EmbeddedQuery (c :: q') (Ok v)]|done].
  - split; [|done].
    by exists [EmbeddedQuery (c :: q') (Ok v); Queried (top5 v) (Ok found')].
  - destruct r' as [answer|e'']; simplify_eq. split; [|done].
    by exists [EmbeddedQuery (c :: q') (Ok v); Queried (top5 v) (Ok found');
               Retrieved 5 (c :: q') (Ok docsFromRetriever)].
Qed.

Lemma answering_failure_surfaces_witness :
  In (EmbeddedQuery (lit "Why?") (Thrown (lit "fetch failed")))
     (trace_of (run offline (ask_question (asking (lit "Why?"))) tt)) /\
  answering_failure (EmbeddedQuery (lit "Why?") (Thrown (lit "fetch failed")))
    = Some (lit "fetch failed") /\
  outcome_of (run offline (ask_question (asking (lit "Why?"))) tt) =
    Returned {| status := 500;
                payload := Json [(lit "error",
                                  lit "Error answering question: " ++ lit "fetch failed")] |}.
Proof.
  assert (In (EmbeddedQuery (lit "Why?") (Thrown (lit "fetch failed")))
            (trace_of (run offline (ask_question (asking (lit "Why?"))) tt)))
    as Hin by (vm_compute; tauto).
  split; [exact Hin|]. split; [reflexivity|].
  exact (proj2 (answering_failure_surfaces (asking (lit "Why?")) unit offline tt _ _ Hin eq_refl)).
Defined.

(** X19: the index is searched with the embedding the provider returned for
    the literal question, for the 5 nearest records, metadata included. *)
Theorem query_uses_question_embedding (req_body : option RequestBody) :
  forall W (env : environment W) (w : W) request r,
    In (Queried request r) (trace_of (run env (ask_question req_body) w)) ->
    exists input v,
      req_body = asking input
      /\ In (EmbeddedQuery input (Ok v)) (trace_of (run env (ask_question req_body) w))
      /\ request = {| q_vector := v; topK := 5; includeMetadata := true |}.
Proof.
  intros W env w request r Hin.
  destruct req_body as [[[[|c q']|]]|]; [by destruct Hin| |by destruct Hin..].
  destruct (run_ask_question env (c :: q') w) as [Ht _]; [done|].
  rewrite Ht in Hin |- *. clear Ht.
  ask_cases env (c :: q') w; crack_in Hin; simplify_eq;
    exists (c :: q'), v; (split; [done|]); (split; [by left|done]).
Qed.

Lemma query_uses_question_embedding_witness :
  In (Queried (top5 (embed (lit "What?"))) (Ok {| matches := [stored (lit "A")] |}))
     (trace_of (run (deployment reindexed) (ask_question (asking (lit "What?"))) 0%nat)) /\
  exists input v,
    asking (lit "What?") = asking input
    /\ In (EmbeddedQuery input (Ok v))
          (trace_of (run (deployment reindexed) (ask_question (asking (lit "What?"))) 0%nat))
    /\ top5 (embed (lit "What?")) = {| q_vector := v; topK := 5; includeMetadata := true |}.
Proof.
  assert (In (Queried (top5 (embed (lit "What?"))) (Ok {| matches := [stored (lit "A")] |}))
            (trace_of (run (deployment reindexed) (ask_question (asking (lit "What?"))) 0%nat)))
    as Hin by (vm_compute; tauto).
  split; [exact Hin|].
  exact (query_uses_question_embedding (asking (lit "What?")) nat (deployment reindexed) 0%nat
           _ _ Hin).
Defined.

(** X20: the retriever is asked only after the handler's own search returned
    at least one match and every match carried metadata; it is asked for 5
    documents, with the literal question. *)
Theorem retriever_needs_matches (req_body : option RequestBody) :
  forall W (env : environment W) (w : W) k input r,
    In (Retrieved k input r) (trace_of (run env (ask_question req_body) w)) ->
    k = 5 /\ req_body = asking input /\
    exists request found,
      In (Queried request (Ok found)) (trace_of (run env (ask_question req_body) w))
      /\ matches found <> []
      /\ forallb has_metadata (matches found) = true.
Proof.
  intros W env w k input r Hin.
  destruct req_body as [[[[|c q']|]]|]; [by destruct Hin| |by destruct Hin..].
  destruct (run_ask_question env (c :: q') w) as [Ht _]; [done|].
  rewrite Ht in Hin |- *. clear Ht.
  ask_cases env (c :: q') w; crack_in Hin; simplify_eq;
    apply relevant_docs_ok in Hdocs as [Hall _];
    (split; [done|]); (split; [done|]); exists (top5 v), found';
    (split; [right; by left|done]).
Qed.

Lemma retriever_needs_matches_witness :
  In (Retrieved 5 (lit "What?") (Ok [ {| pageContent := lit "B" |}; {| pageContent := lit "A" |} ]))
     (trace_of (run (deployment reindexed) (ask_question (asking (lit "What?"))) 0%nat)) /\
  (5 = 5 /\ asking (lit "What?") = asking (lit "What?") /\
   exists request found,
     In (Queried request (Ok found))
        (trace_of (run (deployment reindexed) (ask_question (asking (lit "What?"))) 0%nat))
     /\ matches found <> []
     /\ forallb has_metadata (matches found) = true)%nat.
Proof.
  assert (In (Retrieved 5 (lit "What?")
                (Ok [ {| pageContent := lit "B" |}; {| pageContent := lit "A" |} ]))
            (trace_of (run (deployment reindexed) (ask_question (asking (lit "What?"))) 0%nat)))
    as Hin by (vm_compute; tauto).
  split; [exact Hin|].
  exact (retriever_needs_matches (asking (lit "What?")) nat (deployment reindexed) 0%nat
           _ _ _ Hin).
Defined.

(** ** Both POST routes *)



(** ** From the pages to the chunks *)

Lemma content_of_app s1 s2 : content_of (s1 ++ s2) = content_of s1 ++ content_of s2.
Proof. apply List.filter_app. Qed.

Lemma content_of_join sep parts :
  content_of sep = [] ->
  content_of (join sep parts) = List.concat (List.map content_of parts).
Proof.
  intros Hsep. induction parts as [|p rest IH]; [done|].
  destruct rest as [|p' rest'].
  - simpl. by rewrite app_nil_r.
  - change (join sep (p :: p' :: rest')) with (p ++ sep ++ join sep (p' :: rest')).
    rewrite !content_of_app, Hsep, IH. done.
Qed.

(** X22: nothing but white space is lost between the extractor and the
    splitter: the code units of the cleaned-up text that are not white space
    are those of the text items of the pages, in page and item order. *)
Theorem extracted_content_kept (data : PdfData) (text : jsstring) :
  extracted_text data = Ok text ->
  exists ps,
    pages data = Some ps
    /\ content_of (normalize text)
       = List.concat (List.map (fun page =>
           List.concat (List.map (fun item => content_of (str item)) (content page))) ps).
Proof.
  unfold extracted_text. destruct (pages data) as [[|page ps']|]; [done| |done].
  intros Htext. exists (page :: ps'). split; [done|].
  assert (text = join [LF; LF] (List.map page_text (page :: ps'))) as -> by congruence.
  rewrite normalize_collapse. unfold trim, collapse_ws.
  rewrite trim_end_content, trim_start_content, collapse_from_content.
  rewrite content_of_join by done. rewrite List.map_map. f_equal.
  apply List.map_ext. intros pg. unfold page_text.
  rewrite content_of_join by done. by rewrite List.map_map.
Qed.

Lemma extracted_content_kept_witness :
  extracted_text
    {| pages := Some [ {| content := [ {| str := lit " Al" |}; {| str := lit "pha" |} ] |};
                       {| content := [ {| str := lit "beta " |} ] |} ] |}
  = Ok (lit " Al pha" ++ [LF; LF] ++ lit "beta ") /\
  exists ps,
    pages {| pages := Some [ {| content := [ {| str := lit " Al" |}; {| str := lit "pha" |} ] |};
                             {| content := [ {| str := lit "beta " |} ] |} ] |} = Some ps
    /\ content_of (normalize (lit " Al pha" ++ [LF; LF] ++ lit "beta "))
       = List.concat (List.map (fun page =>
           List.concat (List.map (fun item => content_of (str item)) (content page))) ps).
Proof.
  split; [reflexivity|].
  apply (extracted_content_kept
           {| pages := Some [ {| content := [ {| str := lit " Al" |}; {| str := lit "pha" |} ] |};
                              {| content := [ {| str := lit "beta " |} ] |} ] |}).
  reflexivity.
Defined.

(** ** Identifiers within and across ingestions *)

(** X23: the identifiers of one upsert batch are pairwise distinct, whatever
    the clock reads (also when it does not advance between chunks). *)
Theorem batch_ids_distinct (buffer : list Byte.byte) :
  forall W (env : environment W) (w : W) records r,
    In (Upserted records r) (trace_of (run env (upload_document (Some buffer)) w)) ->
    NoDup (List.map id records).
Proof.
  intros W env w records r Hin.
  destruct (upsert_call_shape buffer W env w records r Hin)
    as (data & text & docs & clocks & embeddings & _ & _ & _ & ->).
  rewrite with_embeddings_ids. apply stamp_ids_distinct.
Qed.

Lemma batch_ids_distinct_witness :
  In (Upserted [ {| id := lit "doc-1700000000000-0";
                    values := embed (lit "Hello");
                    metadata := {| md_pageContent := lit "Hello" |} |};
                 {| id := lit "doc-1700000000000-1";
                    values := embed (lit "lo world");
                    metadata := {| md_pageContent := lit "lo world" |} |} ] (Ok tt))
     (trace_of (run two_chunks (upload_document (Some hello_world)) 0%nat)) /\
  clock_readings (trace_of (run two_chunks (upload_document (Some hello_world)) 0%nat))
    = [1700000000000%Z; 1700000000000%Z] /\
  NoDup [lit "doc-1700000000000-0"; lit "doc-1700000000000-1"].
Proof.
  assert (In (Upserted [ {| id := lit "doc-1700000000000-0";
                            values := embed (lit "Hello");
                            metadata := {| md_pageContent := lit "Hello" |} |};
                         {| id := lit "doc-1700000000000-1";
                            values := embed (lit "lo world");
                            metadata := {| md_pageContent := lit "lo world" |} |} ] (Ok tt))
            (trace_of (run two_chunks (upload_document (Some hello_world)) 0%nat)))
    as Hin by (vm_compute; tauto).
  split; [exact Hin|]. split; [vm_compute; reflexivity|].
  exact (batch_ids_distinct hello_world nat two_chunks 0%nat _ _ Hin).
Defined.

Lemma in_ids_from clocks : forall index x,
  In x (ids_from index clocks) -> exists now j, In now clocks /\ x = upsert_id now j.
Proof.
  induction clocks as [|now clocks' IH]; intros index x; simpl; [done|].
  intros [<-|Hin].
  - exists now, index. split; [by left|done].
  - destruct (IH _ _ Hin) as (now' & j & Hnow & ->). exists now', j. split; [by right|done].
Qed.

Lemma upserted_ids_from_readings (buffer : list Byte.byte) :
  forall W (env : environment W) (w : W) records r x,
    In (Upserted records r) (trace_of (run env (upload_document (Some buffer)) w)) ->
    In x (List.map id records) ->
    exists now j,
      In now (clock_readings (trace_of (run env (upload_document (Some buffer)) w)))
      /\ x = upsert_id now j.
Proof.
  intros W env w records r x Hin Hx.
  destruct (upsert_call_shape buffer W env w records r Hin)
    as (data & text & docs & clocks & embeddings & -> & Hlen & _ & ->).
  rewrite with_embeddings_ids, (stamp_ids_from _ _ _ Hlen) in Hx.
  apply in_ids_from in Hx as (now & j & Hnow & ->). exists now, j. split; [|done].
  unfold ingestion_prefix. rewrite !clock_readings_app, clock_readings_reads.
  simpl. apply in_app_iff. by left.
Qed.

(** X24: two ingestions that share no clock reading write no identifier in
    common: re-ingesting a document at another time adds entries under new
    identifiers instead of replacing the old ones. *)
Theorem ids_disjoint_when_readings_differ (buffer1 buffer2 : list Byte.byte) :
  forall W1 (env1 : environment W1) (w1 : W1) W2 (env2 : environment W2) (w2 : W2)
         records1 r1 records2 r2 x,
    In (Upserted records1 r1) (trace_of (run env1 (upload_document (Some buffer1)) w1)) ->
    In (Upserted records2 r2) (trace_of (run env2 (upload_document (Some buffer2)) w2)) ->
    (forall now,
        In now (clock_readings (trace_of (run env1 (upload_document (Some buffer1)) w1))) ->
        ~ In now (clock_readings (trace_of (run env2 (upload_document (Some buffer2)) w2)))) ->
    In x (List.map id records1) ->
    ~ In x (List.map id records2).
Proof.
  intros W1 env1 w1 W2 env2 w2 records1 r1 records2 r2 x Hin1 Hin2 Hdiffer Hx1 Hx2.
  destruct (upserted_ids_from_readings buffer1 W1 env1 w1 _ _ _ Hin1 Hx1)
    as (now1 & j1 & Hnow1 & ->).
  destruct (upserted_ids_from_readings buffer2 W2 env2 w2 _ _ _ Hin2 Hx2)
    as (now2 & j2 & Hnow2 & Heq).
  apply upsert_id_inj in Heq as [-> _]. by apply (Hdiffer now2).
Qed.

Lemma ids_disjoint_when_readings_differ_witness :
  In (Upserted [ {| id := lit "doc-1700000000000-0";
                    values := embed (lit "Hi");
                    metadata := {| md_pageContent := lit "Hi" |} |} ] (Ok tt))
     (trace_of (run (deployment reindexed) (upload_document (Some [Byte.x48; Byte.x69])) 0%nat)) /\
  In (Upserted [ {| id := lit "doc-1700000000001-0";
                    values := embed (lit "Hi");
                    metadata := {| md_pageContent := lit "Hi" |} |} ] (Ok tt))
     (trace_of (run later (upload_document (Some [Byte.x48; Byte.x69])) 0%nat)) /\
  ~ In (lit "doc-1700000000000-0")
       (List.map id [ {| id := lit "doc-1700000000001-0";
                         values := embed (lit "Hi");
                         metadata := {| md_pageContent := lit "Hi" |} |} ]).
Proof.
  assert (In (Upserted [ {| id := lit "doc-1700000000000-0";
                            values := embed (lit "Hi");
                            metadata := {| md_pageContent := lit "Hi" |} |} ] (Ok tt))
            (trace_of (run (deployment reindexed)
                         (upload_document (Some [Byte.x48; Byte.x69])) 0%nat)))
    as Hin1 by (vm_compute; tauto).
  assert (In (Upserted [ {| id := lit "doc-1700000000001-0";
                            values := embed (lit "Hi");
                            metadata := {| md_pageContent := lit "Hi" |} |} ] (Ok tt))
            (trace_of (run later (upload_document (Some [Byte.x48; Byte.x69])) 0%nat)))
    as Hin2 by (vm_compute; tauto).
  split; [exact Hin1|]. split; [exact Hin2|].
  apply (ids_disjoint_when_readings_differ [Byte.x48; Byte.x69] [Byte.x48; Byte.x69]
           nat (deployment reindexed) 0%nat nat later 0%nat _ _ _ _ _ Hin1 Hin2).
  - intros now H1 H2. vm_compute in H1, H2.
    destruct H1 as [<-|[]]. destruct H2 as [H2|[]]. discriminate H2.
  - by left.
Defined.

(** ** The prompt the chat model receives *)

Example template_literals :
  contextualizedPrompt =
    [ Literal (template_literal 0); Input context; Literal (template_literal 2);
      Input question; Literal (template_literal 4) ]
  /\ template_literal 2 = lit_lines [ ""; "    ";
       "        Now, please answer the user's question. Answer the question as per the context, try to be intelligent and understand the question, if the information isn't available in the provided context, politely state that you don't have enough information from the document to answer.";
       "        Question: " ]%string
  /\ template_literal 4 = lit_lines [ ""; "    "; "        Answer:" ]%string.
Proof. repeat split; reflexivity. Qed.

(** X25: every prompt the chat model receives is the template's text before
    [{context}], the page contents of the retriever's documents joined by a
    blank line, the template's text between the two variables, the literal
    question of the request, and the template's text after [{question}]:
    context and question are inserted as they are. *)
Theorem completed_prompt_shape (req_body : option RequestBody) :
  forall W (env : environment W) (w : W) prompt r,
    In (Completed prompt r) (trace_of (run env (ask_question req_body) w)) ->
    exists input docs,
      req_body = asking input
      /\ In (Retrieved 5 input (Ok docs)) (trace_of (run env (ask_question req_body) w))
      /\ prompt =
           template_literal 0
           ++ join [LF; LF] (List.map pageContent docs)
           ++ template_literal 2
           ++ input
           ++ template_literal 4.
Proof.
  intros W env w prompt r Hin.
  destruct req_body as [[[[|c q']|]]|]; [by destruct Hin| |by destruct Hin..].
  destruct (run_ask_question env (c :: q') w) as [Ht _]; [done|].
  rewrite Ht in Hin |- *. clear Ht.
  ask_cases env (c :: q') w; crack_in Hin; simplify_eq.
  exists (c :: q'), docsFromRetriever. split; [done|]. split; [simpl; tauto|].
  unfold rendered_prompt, format, contextualizedPrompt.
  cbn [List.map List.concat]. by rewrite app_nil_r.
Qed.

Lemma completed_prompt_shape_witness :
  In (Completed (rendered_prompt (lit "B" ++ [LF; LF] ++ lit "A") (lit "What?")) (Ok (lit "42")))
     (trace_of (run (deployment reindexed) (ask_question (asking (lit "What?"))) 0%nat)) /\
  exists input docs,
    asking (lit "What?") = asking input
    /\ In (Retrieved 5 input (Ok docs))
          (trace_of (run (deployment reindexed) (ask_question (asking (lit "What?"))) 0%nat))
    /\ rendered_prompt (lit "B" ++ [LF; LF] ++ lit "A") (lit "What?") =
         template_literal 0
         ++ join [LF; LF] (List.map pageContent docs)
         ++ template_literal 2
         ++ input
         ++ template_literal 4.
Proof.
  assert (In (Completed (rendered_prompt (lit "B" ++ [LF; LF] ++ lit "A") (lit "What?"))
                (Ok (lit "42")))
            (trace_of (run (deployment reindexed) (ask_question (asking (lit "What?"))) 0%nat)))
    as Hin by (vm_compute; tauto).
  split; [exact Hin|].
  exact (completed_prompt_shape (asking (lit "What?")) nat (deployment reindexed) 0%nat
           _ _ Hin).
Defined.
